(** * DocumentationGenerator (generate-docs.js): scoring and orchestration

    A shallow embedding of the [DocumentationGenerator] class.  JavaScript
    objects used as dictionaries are finite maps keyed by property name,
    arrays are lists, numbers are rationals (the scores only ever add the
    literals 0.4 and 0.2 or divide two array lengths); the IEEE-754 reading
    of the confidence sum is kept beside it in [Binary64].  Asynchronous
    methods run in a state-and-exception monad over the fields of [this],
    the [results] array and a trace of the calls made to collaborators. *)

From Stdlib Require Import QArith Qminmax Qround Floats Ascii Lqa.
From stdpp Require Import gmap strings list sorting.

(** ** Values, results and the script monad *)

Module Js.
Local Open Scope Q_scope.

#[local] Set Warnings "-register-all".

(** Plain data handed around by the analyzers; the orchestrator never
    looks inside. *)
Inductive Json : Type :=
| JNull
| JBool (b : bool)
| JNum (q : Q)
| JStr (s : string)
| JArr (items : list Json)
| JObj (props : list (string * Json)).

(** What a collaborator's promise settles to. *)
Inductive Result (A : Type) : Type :=
| Ok (value : A)
| Error (message : string).
Arguments Ok {A} value.
Arguments Error {A} message.

(** How a piece of the script ends: it returns, throws, or the process
    is stopped by [process.exit(code)], which no [catch] sees. *)
Inductive Outcome (A : Type) : Type :=
| Returned (value : A)
| Threw (message : string)
| Exited (code : Z).
Arguments Returned {A} value.
Arguments Threw {A} message.
Arguments Exited {A} code.

Definition M (S A : Type) : Type := S -> Outcome A * S.

#[global] Instance M_ret {S} : MRet (M S) := fun A a s => (Returned a, s).

#[global] Instance M_bind {S} : MBind (M S) := fun A B k m s =>
  match m s with
  | (Returned a, s') => k a s'
  | (Threw e, s') => (Threw e, s')
  | (Exited c, s') => (Exited c, s')
  end.

Definition throw {S A} (message : string) : M S A := fun s => (Threw message, s).

Definition process_exit {S A} (code : Z) : M S A := fun s => (Exited code, s).

(** [try { body } catch (error) { handler(error.message) }] *)
Definition try_catch {S A} (body : M S A) (handler : string -> M S A) : M S A :=
  fun s =>
    match body s with
    | (Threw e, s') => handler e s'
    | r => r
    end.

Definition gets {S A} (f : S -> A) : M S A := fun s => (Returned (f s), s).

Definition modify {S} (f : S -> S) : M S unit := fun s => (Returned tt, f s).

(** [await p] for a promise [p] that has settled to [r]. *)
Definition await {S A} (r : Result A) : M S A :=
  match r with
  | Ok a => mret a
  | Error e => throw e
  end.

Fixpoint string_drop (n : nat) (s : string) : string :=
  match n, s with
  | O, _ => s
  | S n', String _ s' => string_drop n' s'
  | S _, EmptyString => EmptyString
  end.

(** [s.replace(searchValue, replaceValue)] with a string pattern: only the
    first occurrence is replaced.  ([$]-patterns in the replacement are not
    interpreted; every call site passes [''].) *)
Fixpoint String_replace (searchValue replaceValue s : string) : string :=
  if String.prefix searchValue s
  then replaceValue +:+ string_drop (String.length searchValue) s
  else match s with
       | EmptyString => EmptyString
       | String c s' => String c (String_replace searchValue replaceValue s')
       end.

Fixpoint insert_by {A} (compareFn : A -> A -> Q) (x : A) (sorted : list A) : list A :=
  match sorted with
  | [] => [x]
  | y :: rest =>
      if Qle_bool (compareFn x y) 0 then x :: y :: rest
      else y :: insert_by compareFn x rest
  end.

(** [array.sort(compareFn)].  The sort is stable (ECMAScript 2019), so for
    a consistent comparator the result is the one insertion sort gives:
    an element moves past another only when it compares greater. *)
Definition Array_sort {A} (compareFn : A -> A -> Q) (array : list A) : list A :=
  foldr (insert_by compareFn) [] array.

(** [x.toFixed(0)] read back as a number, for [x >= 0]. *)
Definition toFixed0 (x : Q) : Z := Qfloor (x + (1 # 2)).

End Js.

(** ** Detector outputs and the two scorers *)

Module Scoring.
Import Js.
Local Open Scope Q_scope.

(** [techStack.configurations], [architecture.patterns] and [codeExamples]
    are objects indexed by domain name.  A property that holds [null] or
    [undefined] acts like one that holds [[]] in both scorers
    ([x?.length > 0] is false, [x || []] is empty), so array-valued
    properties are lists and a missing key is [None]. *)
Record TechStack := {
  configurations : gmap string Json;
  frameworks : gmap string Json
}.
Record Architecture := { patterns : gmap string (list Json) }.
Definition CodeExamples : Type := gmap string (list Json).

(** [obj[domain]?.length > 0] *)
Definition length_positive {A} (prop : option (list A)) : bool :=
  match prop with
  | Some arr => bool_decide (0 < length arr)%nat
  | None => false
  end.

(** [obj[domain] || []] *)
Definition or_empty {A} (prop : option (list A)) : list A :=
  match prop with
  | Some arr => arr
  | None => []
  end.

(** [obj[domain] !== undefined] *)
Definition defined {A} (prop : option A) : bool :=
  match prop with
  | Some _ => true
  | None => false
  end.

Definition domains : list string :=
  [ "authentication"; "components"; "state"; "backgroundJobs";
    "fileStorage"; "database"; "errorHandling"; "testing";
    "integration"; "deployment" ]%string.

(** The body of the [forEach] callback up to the clamp. *)
Definition confidenceSum (hasPatterns hasExamples hasConfig : bool) : Q :=
  let score := 0 in
  let score := if hasPatterns then score + 0.4 else score in
  let score := if hasExamples then score + 0.4 else score in
  let score := if hasConfig then score + 0.2 else score in
  score.

(** The value of [score] when the callback reaches [Math.min]. *)
Definition domainSum (techStack : TechStack) (architecture : Architecture)
    (codeExamples : CodeExamples) (domain : string) : Q :=
  let hasPatterns := length_positive (patterns architecture !! domain) in
  let hasExamples := length_positive (codeExamples !! domain) in
  let hasConfig := defined (configurations techStack !! domain) in
  confidenceSum hasPatterns hasExamples hasConfig.

Definition domainConfidence (techStack : TechStack) (architecture : Architecture)
    (codeExamples : CodeExamples) (domain : string) : Q :=
  Qmin (domainSum techStack architecture codeExamples domain) 1.0.

(** [scores = {}] followed by [domains.forEach(d => scores[d] = ...)]. *)
Definition calculateConfidenceScores (techStack : TechStack)
    (architecture : Architecture) (codeExamples : CodeExamples) : gmap string Q :=
  foldl (fun scores domain =>
           <[domain := domainConfidence techStack architecture codeExamples domain]> scores)
        ∅ domains.

Definition domainCompleteness (architecture : Architecture)
    (codeExamples : CodeExamples) (domain : string) : Q :=
  let patterns := or_empty (patterns architecture !! domain) in
  let examples := or_empty (codeExamples !! domain) in
  if bool_decide (0 < length patterns)%nat
  then Qmin (inject_Z (Z.of_nat (length examples))
             / inject_Z (Z.of_nat (Nat.max (length patterns) 1))) 1.0
  else 0.

(** The completeness loop, for an explicit enumeration of the keys. *)
Definition completenessOver (keys : list string) (architecture : Architecture)
    (codeExamples : CodeExamples) : gmap string Q :=
  foldl (fun scores domain =>
           <[domain := domainCompleteness architecture codeExamples domain]> scores)
        ∅ keys.

(** [Object.keys(obj)].  The enumeration order of a finite map is not the
    insertion order of the object; [completenessOver] is shown not to
    depend on it. *)
Definition Object_keys {A} (obj : gmap string A) : list string :=
  (map_to_list obj).*1.

Definition calculateCompletenessScores (architecture : Architecture)
    (codeExamples : CodeExamples) : gmap string Q :=
  completenessOver (Object_keys (patterns architecture)) architecture codeExamples.

(** *** The quantities the specification speaks about *)

Definition patternMatchCount (architecture : Architecture) (domain : string) : nat :=
  length (or_empty (patterns architecture !! domain)).

Definition acceptedExampleCount (codeExamples : CodeExamples) (domain : string) : nat :=
  length (or_empty (codeExamples !! domain)).

Definition hasDetectedConfiguration (techStack : TechStack) (domain : string) : Prop :=
  is_Some (configurations techStack !! domain).

(** A binary term of the confidence formula. *)
Definition indicator (P : Prop) `{Decision P} : Q := if decide P then 1 else 0.

Definition clamp01 (x : Q) : Q := Qmax 0 (Qmin x 1).

(** Confidence as section 4.5 words it. *)
Definition specConfidence (techStack : TechStack) (architecture : Architecture)
    (codeExamples : CodeExamples) (domain : string) : Q :=
  clamp01 (0.4 * indicator (1 <= patternMatchCount architecture domain)%nat
           + 0.4 * indicator (1 <= acceptedExampleCount codeExamples domain)%nat
           + 0.2 * indicator (hasDetectedConfiguration techStack domain)).

(** Completeness as section 4.5 words it. *)
Definition specCompleteness (architecture : Architecture)
    (codeExamples : CodeExamples) (domain : string) : Q :=
  clamp01 (inject_Z (Z.of_nat (acceptedExampleCount codeExamples domain))
           / inject_Z (Z.of_nat (Nat.max (patternMatchCount architecture domain) 1))).

(** What the scorers can observe of the detector outputs for one domain. *)
Definition sameEvidence (ts1 ts2 : TechStack) (a1 a2 : Architecture)
    (ex1 ex2 : CodeExamples) : Prop :=
  dom (patterns a1) = dom (patterns a2) /\
  forall domain,
    patternMatchCount a1 domain = patternMatchCount a2 domain /\
    acceptedExampleCount ex1 domain = acceptedExampleCount ex2 domain /\
    (hasDetectedConfiguration ts1 domain <-> hasDetectedConfiguration ts2 domain).

End Scoring.

(** ** The confidence sum on IEEE-754 doubles *)

Module Binary64.
Local Open Scope float_scope.

#[local] Set Warnings "-inexact-float".

Definition confidenceSum (hasPatterns hasExamples hasConfig : bool) : float :=
  let score := 0 in
  let score := if hasPatterns then score + 0.4 else score in
  let score := if hasExamples then score + 0.4 else score in
  let score := if hasConfig then score + 0.2 else score in
  score.

(** [Math.min(x, y)] on numbers that are neither NaN nor zeros of
    different sign. *)
Definition Math_min (x y : float) : float := if PrimFloat.ltb y x then y else x.

Definition confidence (hasPatterns hasExamples hasConfig : bool) : float :=
  Math_min (confidenceSum hasPatterns hasExamples hasConfig) 1.0.

Definition term (weight : float) (present : bool) : float :=
  weight * (if present then 1 else 0).

(** The formula of section 4.5, evaluated left to right in doubles. *)
Definition specConfidence (hasPatterns hasExamples hasConfig : bool) : float :=
  Math_min (term 0.4 hasPatterns + term 0.4 hasExamples + term 0.2 hasConfig) 1.

End Binary64.

(** ** The orchestrator *)

Module Generator.
Import Js Scoring.
Local Open Scope Q_scope.
Local Open Scope string_scope.

(** *** Data *)

(** The [ai] section of the configuration file, as far as the orchestrator
    reads it. *)
Record AiConfig := { rateLimitDelay : option Z }.

(** The parsed configuration object; [ai] may be missing. *)
Record ConfigFile := { ai : option AiConfig; settings : Json }.

Record PackageJson := { package_name : option string; package_description : option string }.

Record Project := {
  project_name : string;
  project_description : string;
  project_structure : Json;
  project_technologies : TechStack
}.

Record AnalysisPayload := {
  analysis_techStack : TechStack;
  analysis_architecture : Architecture;
  analysis_patterns : gmap string (list Json);
  analysis_examples : CodeExamples;
  analysis_configurations : gmap string Json
}.

(** [timestamp] and [analysisTime] are readings of the clock and are left
    out. *)
Record Metadata := {
  confidence : gmap string Q;
  completeness : gmap string Q
}.

Record Analysis := {
  project : Project;
  analysis : AnalysisPayload;
  metadata : Metadata
}.

Record Guide := { name : string; priority : Z }.

Inductive GuideResult : Type :=
| GuideSuccess (guide path : string) (confidence : Q)
| GuideError (guide error : string).

Inductive Emoji := Green | Yellow | Red.

Record IndexEntry := { entry_guide : string; entry_emoji : Emoji; entry_percent : Z }.

(** The parts of the index that depend on [results]: the two guide lists.
    The project header, the analysis summary and the per-domain quality
    metrics are rendered from [this.analysis] alone; the index as a whole
    is [IndexMarkdown] below. *)
Record IndexContent := {
  successfulGuides : list IndexEntry;
  failedGuides : list (string * string)
}.

Record Prompt := {
  prompt_master : string;
  prompt_context : option Analysis;
  targetGuide : string;
  focusArea : string
}.

Inductive Content : Type :=
| AnalysisJson (a : option Analysis)
| GuideMarkdown (text : string)
| IndexMarkdown (a : Analysis) (lists : IndexContent).

Record AIClient := { client_config : option AiConfig }.

Inductive Analyzer :=
| TechStackAnalyzer | ArchitectureAnalyzer | CodeExtractor | FileStructureAnalyzer.

Inductive Validator :=
| AccuracyValidator | CompletenessValidator | ConsistencyValidator.

(** Where the value passed at a call site comes from. *)
Inductive Argument :=
| ProjectRoot (root : string)
| OutputOf (who : Analyzer).

(** Calls that leave the orchestrator, in program order. *)
Inductive Event :=
| Invoke (who : Analyzer) (arguments : list Argument)
| AwaitAll (whos : list Analyzer)
| ReadFile (path : string)
| WriteFile (path : string)
| Mkdir (path : string)
| GenerateContent (guide : string)
| Delay (ms : Z)
| Validate (who : Validator).

(** Everything outside generate-docs.js: the file system, [path], the
    JSON parser, the analyzers, the validators and the AI client.  Each
    answer is a function of the arguments of the call; within one run only
    the read of package.json is issued twice with the same arguments. *)
Record World := {
  dirname : string;
  path_join : string -> string -> string;
  path_basename : string -> string;
  fs_readFile : string -> Result string;
  fs_writeFile : string -> Content -> Result unit;
  fs_mkdir : string -> Result unit;
  JSON_parse_config : string -> Result ConfigFile;
  JSON_parse_package : string -> Result PackageJson;
  new_AIClient : option AiConfig -> Result AIClient;
  generateContent : AIClient -> Prompt -> Result string;
  techStack_analyze : option ConfigFile -> string -> Result TechStack;
  architecture_analyze : option ConfigFile -> string -> Result Architecture;
  codeExtractor_extract : option ConfigFile -> string -> Result CodeExamples;
  fileStructure_analyze : option ConfigFile -> string -> Result Json;
  validate : Validator -> option ConfigFile -> string -> Result Json
}.

(** The fields of [this], the [results] array of [generateDocumentation]
    (pushed to from inside both [try] and [catch]), and the trace. *)
Record State := {
  projectRoot : string;
  configPath : string;
  outputPath : string;
  config : option ConfigFile;
  this_analysis : option Analysis;
  aiClient : option AIClient;
  results : list GuideResult;
  trace : list Event
}.

Definition set_config (c : ConfigFile) (s : State) : State :=
  {| projectRoot := projectRoot s; configPath := configPath s; outputPath := outputPath s;
     config := Some c; this_analysis := this_analysis s; aiClient := aiClient s;
     results := results s; trace := trace s |}.

Definition set_analysis (a : Analysis) (s : State) : State :=
  {| projectRoot := projectRoot s; configPath := configPath s; outputPath := outputPath s;
     config := config s; this_analysis := Some a; aiClient := aiClient s;
     results := results s; trace := trace s |}.

Definition set_aiClient (c : AIClient) (s : State) : State :=
  {| projectRoot := projectRoot s; configPath := configPath s; outputPath := outputPath s;
     config := config s; this_analysis := this_analysis s; aiClient := Some c;
     results := results s; trace := trace s |}.

Definition set_results (rs : list GuideResult) (s : State) : State :=
  {| projectRoot := projectRoot s; configPath := configPath s; outputPath := outputPath s;
     config := config s; this_analysis := this_analysis s; aiClient := aiClient s;
     results := rs; trace := trace s |}.

Definition record (e : Event) (s : State) : State :=
  {| projectRoot := projectRoot s; configPath := configPath s; outputPath := outputPath s;
     config := config s; this_analysis := this_analysis s; aiClient := aiClient s;
     results := results s; trace := trace s ++ [e] |}.

Definition results_push (r : GuideResult) : M State unit :=
  modify (fun s => set_results (results s ++ [r]) s).

Definition emit (e : Event) : M State unit := modify (record e).

(** [value || fallback] on strings: [undefined] and [''] are falsy. *)
Definition string_or (value : option string) (fallback : string) : string :=
  match value with
  | Some "" | None => fallback
  | Some s => s
  end.

(** [value || fallback] on numbers: [undefined] and [0] are falsy. *)
Definition Z_or (value : option Z) (fallback : Z) : Z :=
  match value with
  | Some 0%Z | None => fallback
  | Some n => n
  end.

(** [scores[key] || 0] *)
Definition score_or_zero (value : option Q) : Q :=
  match value with
  | Some q => if Qeq_bool q 0 then 0 else q
  | None => 0
  end.

(** [new DocumentationGenerator(options)] with [process.cwd()] given. *)
Definition constructor (cwd : string) (optProjectRoot optConfigPath optOutputPath : option string)
    : State :=
  {| projectRoot := string_or optProjectRoot cwd;
     configPath := string_or optConfigPath "./config/analysis-config.json";
     outputPath := string_or optOutputPath "./output/generated-docs";
     config := None; this_analysis := None; aiClient := None;
     results := []; trace := [] |}.

(** *** Methods *)

Definition guides : list Guide :=
  [ {| name := "authentication-architecture"; priority := 1 |};
    {| name := "component-architecture"; priority := 1 |};
    {| name := "state-management-architecture"; priority := 1 |};
    {| name := "background-jobs-architecture"; priority := 2 |};
    {| name := "file-storage-architecture"; priority := 2 |};
    {| name := "database-architecture"; priority := 2 |};
    {| name := "error-handling-architecture"; priority := 3 |};
    {| name := "testing-architecture"; priority := 3 |};
    {| name := "integration-architecture"; priority := 3 |};
    {| name := "deployment-architecture"; priority := 3 |} ].

(** [this.analysis.metadata.confidence[name.replace('-architecture', '')] || 0] *)
Definition guideConfidence (a : Analysis) (guideName : string) : Q :=
  score_or_zero (confidence (metadata a) !! String_replace "-architecture" "" guideName).

(** The comparator handed to [guides.sort]. *)
Definition compareGuides (an : Analysis) (a b : Guide) : Q :=
  let aConfidence := guideConfidence an (name a) in
  let bConfidence := guideConfidence an (name b) in
  if bool_decide (priority a <> priority b)
  then inject_Z (priority a - priority b)
  else bConfidence - aConfidence.

Definition emojiFor (percent : Z) : Emoji :=
  if bool_decide (80 <= percent)%Z then Green
  else if bool_decide (60 <= percent)%Z then Yellow
  else Red.

Definition successEntry (r : GuideResult) : option IndexEntry :=
  match r with
  | GuideSuccess guide _ confidence =>
      let percent := toFixed0 (confidence * 100) in
      Some {| entry_guide := guide; entry_emoji := emojiFor percent; entry_percent := percent |}
  | GuideError _ _ => None
  end.

Definition failureEntry (r : GuideResult) : option (string * string) :=
  match r with
  | GuideSuccess _ _ _ => None
  | GuideError guide error => Some (guide, error)
  end.

(** The two filters of [createIndexContent] and what is rendered of
    their elements. *)
Definition indexGuides (results : list GuideResult) : IndexContent :=
  {| successfulGuides := omap successEntry results;
     failedGuides := omap failureEntry results |}.

(** [value === null || value === undefined]: an analyzer result that is
    [null] or [undefined] is [JNull].  Reading a property of any other
    value gives [undefined] at worst. *)
Definition nullish (value : Json) : bool :=
  match value with
  | JNull => true
  | _ => false
  end.

(** The template of [createIndexContent] reads [this.analysis.project],
    [this.analysis.analysis.techStack], [this.analysis.metadata] and
    [this.analysis.project.structure.totalFiles]: it throws a TypeError
    when there is no analysis or when the file-structure result is [null]
    or [undefined], and nowhere else.  The message is the one for
    [null]. *)
Definition createIndexContent (results : list GuideResult) : M State Content :=
  a ← gets this_analysis;
  match a with
  | None => throw "Cannot read properties of null (reading 'project')"
  | Some a =>
      if nullish (project_structure (project a))
      then throw "Cannot read properties of null (reading 'totalFiles')"
      else mret (IndexMarkdown a (indexGuides results))
  end.

(** [await Promise.all([a, b, c, d])]: the first rejection in array order
    stands for whichever promise rejects first. *)
Definition Promise_all4 {A B C D} (a : Result A) (b : Result B) (c : Result C)
    (d : Result D) : Result (A * B * C * D) :=
  match a, b, c, d with
  | Ok x, Ok y, Ok z, Ok u => Ok (x, y, z, u)
  | Error e, _, _, _ => Error e
  | _, Error e, _, _ => Error e
  | _, _, Error e, _ => Error e
  | _, _, _, Error e => Error e
  end.

Definition Promise_all3 {A B C} (a : Result A) (b : Result B) (c : Result C)
    : Result (A * B * C) :=
  match a, b, c with
  | Ok x, Ok y, Ok z => Ok (x, y, z)
  | Error e, _, _ => Error e
  | _, Error e, _ => Error e
  | _, _, Error e => Error e
  end.

(** [for (const x of xs) { body }] *)
Fixpoint for_of {A} (xs : list A) (body : A -> M State unit) : M State unit :=
  match xs with
  | [] => mret tt
  | x :: rest => body x;; for_of rest body
  end.

Section Methods.
Variable w : World.

Definition readFile (path : string) : M State string :=
  emit (ReadFile path);; await (fs_readFile w path).

Definition writeFile (path : string) (content : Content) : M State unit :=
  emit (WriteFile path);; await (fs_writeFile w path content).

Definition loadConfig : M State ConfigFile :=
  try_catch
    (path ← gets configPath;
     configData ← readFile path;
     await (JSON_parse_config w configData))
    (fun _ => process_exit 1).

Definition initialize : M State unit :=
  c ← loadConfig;
  modify (set_config c);;
  client ← await (new_AIClient w (ai c));
  modify (set_aiClient client);;
  out ← gets outputPath;
  emit (Mkdir out);;
  await (fs_mkdir w out).

Definition readPackageJson : M State PackageJson :=
  root ← gets projectRoot;
  data ← readFile (path_join w root "package.json");
  await (JSON_parse_package w data).

Definition detectProjectName : M State string :=
  try_catch
    (packageJson ← readPackageJson;
     root ← gets projectRoot;
     mret (string_or (package_name packageJson) (path_basename w root)))
    (fun _ => root ← gets projectRoot; mret (path_basename w root)).

Definition detectProjectDescription : M State string :=
  try_catch
    (packageJson ← readPackageJson;
     mret (string_or (package_description packageJson) "No description available"))
    (fun _ => mret "No description available").

Definition saveAnalysisResults : M State unit :=
  out ← gets outputPath;
  a ← gets this_analysis;
  writeFile (path_join w out "analysis-results.json") (AnalysisJson a).

Definition analyzeCodebase : M State Analysis :=
  cfg ← gets config;
  root ← gets projectRoot;
  emit (Invoke TechStackAnalyzer [ProjectRoot root]);;
  emit (Invoke ArchitectureAnalyzer [ProjectRoot root]);;
  emit (Invoke CodeExtractor [ProjectRoot root]);;
  emit (Invoke FileStructureAnalyzer [ProjectRoot root]);;
  '(techStack, architecture, codeExamples, fileStructure) ←
    await (Promise_all4 (techStack_analyze w cfg root)
                        (architecture_analyze w cfg root)
                        (codeExtractor_extract w cfg root)
                        (fileStructure_analyze w cfg root));
  emit (AwaitAll [TechStackAnalyzer; ArchitectureAnalyzer; CodeExtractor;
                  FileStructureAnalyzer]);;
  projectName ← detectProjectName;
  projectDescription ← detectProjectDescription;
  let a :=
    {| project := {| project_name := projectName;
                     project_description := projectDescription;
                     project_structure := fileStructure;
                     project_technologies := techStack |};
       analysis := {| analysis_techStack := techStack;
                      analysis_architecture := architecture;
                      analysis_patterns := patterns architecture;
                      analysis_examples := codeExamples;
                      analysis_configurations := configurations techStack |};
       metadata := {| confidence :=
                        calculateConfidenceScores techStack architecture codeExamples;
                      completeness :=
                        calculateCompletenessScores architecture codeExamples |} |} in
  modify (set_analysis a);;
  saveAnalysisResults;;
  mret a.

Definition loadMasterPrompt : M State string :=
  readFile (path_join w (path_join w (dirname w) "prompts") "master-prompt.md").

Definition generateGuide (guideName masterPrompt : string) : M State string :=
  a ← gets this_analysis;
  let guidePrompt :=
    {| prompt_master := masterPrompt;
       prompt_context := a;
       targetGuide := guideName;
       focusArea := String_replace "-architecture" "" guideName |} in
  client ← gets aiClient;
  match client with
  | None => throw "Cannot read properties of null (reading 'generateContent')"
  | Some c => emit (GenerateContent guideName);; await (generateContent w c guidePrompt)
  end.

(** [setTimeout] always fires. *)
Definition delay (ms : Z) : M State unit := emit (Delay ms).

(** [await this.delay(this.config.ai.rateLimitDelay || 100)] *)
Definition rateLimitPause : M State unit :=
  cfg ← gets config;
  match cfg with
  | None => throw "Cannot read properties of null (reading 'ai')"
  | Some c =>
      match ai c with
      | None => throw "Cannot read properties of undefined (reading 'rateLimitDelay')"
      | Some aiConfig => delay (Z_or (rateLimitDelay aiConfig) 100)
      end
  end.

(** One turn of the generation loop.  [a] is [this.analysis], which no
    turn assigns. *)
Definition generateOne (a : Analysis) (masterPrompt : string) (guide : Guide)
    : M State unit :=
  try_catch
    (content ← generateGuide (name guide) masterPrompt;
     out ← gets outputPath;
     let filePath := path_join w out (name guide +:+ ".md") in
     writeFile filePath (GuideMarkdown content);;
     results_push (GuideSuccess (name guide) filePath (guideConfidence a (name guide)));;
     rateLimitPause)
    (fun error => results_push (GuideError (name guide) error)).

Definition generateIndex (rs : list GuideResult) : M State unit :=
  indexContent ← createIndexContent rs;
  out ← gets outputPath;
  writeFile (path_join w out "README.md") indexContent.

Definition generateDocumentation : M State (list GuideResult) :=
  a ← gets this_analysis;
  match a with
  | None => throw "Analysis must be completed before generating documentation"
  | Some a =>
      masterPrompt ← loadMasterPrompt;
      let sortedGuides := Array_sort (compareGuides a) guides in
      modify (set_results []);;
      for_of sortedGuides (generateOne a masterPrompt);;
      rs ← gets results;
      generateIndex rs;;
      mret rs
  end.

Definition validateDocumentation : M State (Json * Json * Json) :=
  cfg ← gets config;
  out ← gets outputPath;
  emit (Validate AccuracyValidator);;
  emit (Validate CompletenessValidator);;
  emit (Validate ConsistencyValidator);;
  await (Promise_all3 (validate w AccuracyValidator cfg out)
                      (validate w CompletenessValidator cfg out)
                      (validate w ConsistencyValidator cfg out)).

Definition run : M State (list GuideResult) :=
  try_catch
    (initialize;;
     analyzeCodebase;;
     rs ← generateDocumentation;
     validateDocumentation;;
     mret rs)
    (fun _ => process_exit 1).

End Methods.

(** The status the process ends with: [process.exit(code)] sets it, an
    unhandled rejection ends the process with 1, and a script that runs
    to its end leaves 0. *)
Definition exit_status {A} (o : Outcome A) : Z :=
  match o with
  | Returned _ => 0
  | Threw _ => 1
  | Exited code => code
  end.

(** *** What one turn of the loop adds *)

(** The state a turn starts from, with the two logs emptied. *)
Definition blank (s : State) : State :=
  {| projectRoot := projectRoot s; configPath := configPath s; outputPath := outputPath s;
     config := config s; this_analysis := this_analysis s; aiClient := aiClient s;
     results := []; trace := [] |}.

Definition extend (s : State) (rs : list GuideResult) (evs : list Event) : State :=
  {| projectRoot := projectRoot s; configPath := configPath s; outputPath := outputPath s;
     config := config s; this_analysis := this_analysis s; aiClient := aiClient s;
     results := (results s ++ rs)%list; trace := (trace s ++ evs)%list |}.

Definition turnResults (w : World) (a : Analysis) (masterPrompt : string) (s : State)
    (guide : Guide) : list GuideResult :=
  results (generateOne w a masterPrompt guide (blank s)).2.

Definition turnTrace (w : World) (a : Analysis) (masterPrompt : string) (s : State)
    (guide : Guide) : list Event :=
  trace (generateOne w a masterPrompt guide (blank s)).2.

(** The prompt [generateGuide] builds for a guide. *)
Definition promptFor (s : State) (masterPrompt : string) (guide : Guide) : Prompt :=
  {| prompt_master := masterPrompt;
     prompt_context := this_analysis s;
     targetGuide := name guide;
     focusArea := String_replace "-architecture" "" (name guide) |}.

Definition promptPath (w : World) : string :=
  path_join w (path_join w (dirname w) "prompts") "master-prompt.md".

Definition analysisPath (w : World) (s : State) : string :=
  path_join w (outputPath s) "analysis-results.json".

Definition indexPath (w : World) (s : State) : string :=
  path_join w (outputPath s) "README.md".

Definition packagePath (w : World) (s : State) : string :=
  path_join w (projectRoot s) "package.json".

(** *** What a run hands from one step to the next *)

(** package.json as the two detectors see it: read and parsed, or
    nothing. *)
Definition packageJsonOf (w : World) (root : string) : option PackageJson :=
  match fs_readFile w (path_join w root "package.json") with
  | Ok data =>
      match JSON_parse_package w data with
      | Ok packageJson => Some packageJson
      | Error _ => None
      end
  | Error _ => None
  end.

Definition projectNameOf (w : World) (root : string) : string :=
  match packageJsonOf w root with
  | Some packageJson => string_or (package_name packageJson) (path_basename w root)
  | None => path_basename w root
  end.

Definition projectDescriptionOf (w : World) (root : string) : string :=
  match packageJsonOf w root with
  | Some packageJson => string_or (package_description packageJson) "No description available"
  | None => "No description available"
  end.

(** The analysis [analyzeCodebase] assembles from the four results. *)
Definition analysisOf (w : World) (root : string) (techStack : TechStack)
    (architecture : Architecture) (codeExamples : CodeExamples) (fileStructure : Json)
    : Analysis :=
  {| project := {| project_name := projectNameOf w root;
                   project_description := projectDescriptionOf w root;
                   project_structure := fileStructure;
                   project_technologies := techStack |};
     analysis := {| analysis_techStack := techStack;
                    analysis_architecture := architecture;
                    analysis_patterns := patterns architecture;
                    analysis_examples := codeExamples;
                    analysis_configurations := configurations techStack |};
     metadata := {| confidence :=
                      calculateConfidenceScores techStack architecture codeExamples;
                    completeness :=
                      calculateCompletenessScores architecture codeExamples |} |}.

(** The fields of the generator when the loop starts. *)
Definition generationState (s : State) (c : ConfigFile) (client : AIClient) (a : Analysis)
    : State :=
  {| projectRoot := projectRoot s; configPath := configPath s; outputPath := outputPath s;
     config := Some c; this_analysis := Some a; aiClient := Some client;
     results := []; trace := [] |}.

(** The results the loop has recorded when it ends. *)
Definition batchResults (w : World) (s : State) (c : ConfigFile) (client : AIClient)
    (a : Analysis) (masterPrompt : string) : list GuideResult :=
  mjoin (turnResults w a masterPrompt (generationState s c client a)
           <$> Array_sort (compareGuides a) guides).

(** *** The steps outside the per-guide [try] *)

(** Loading and parsing the configuration, building the client, creating
    the output directory, the four analyzers, saving the analysis they
    gave, loading the master prompt, rendering the index (which needs a
    file-structure result that is not [null]), writing the index rendered
    from the recorded results, the three validators. *)
Definition stepsSucceed (w : World) (s : State) : Prop :=
  exists data c client ts arch ex structure masterPrompt,
    fs_readFile w (configPath s) = Ok data /\
    JSON_parse_config w data = Ok c /\
    new_AIClient w (ai c) = Ok client /\
    fs_mkdir w (outputPath s) = Ok tt /\
    techStack_analyze w (Some c) (projectRoot s) = Ok ts /\
    architecture_analyze w (Some c) (projectRoot s) = Ok arch /\
    codeExtractor_extract w (Some c) (projectRoot s) = Ok ex /\
    fileStructure_analyze w (Some c) (projectRoot s) = Ok structure /\
    fs_writeFile w (analysisPath w s)
      (AnalysisJson (Some (analysisOf w (projectRoot s) ts arch ex structure))) = Ok tt /\
    fs_readFile w (promptPath w) = Ok masterPrompt /\
    nullish structure = false /\
    fs_writeFile w (indexPath w s)
      (IndexMarkdown (analysisOf w (projectRoot s) ts arch ex structure)
         (indexGuides
            (batchResults w s c client
               (analysisOf w (projectRoot s) ts arch ex structure) masterPrompt))) = Ok tt /\
    (forall v, exists report, validate w v (Some c) (outputPath s) = Ok report).

Definition firstStage (root : string) : list Event :=
  [ Invoke TechStackAnalyzer [ProjectRoot root];
    Invoke ArchitectureAnalyzer [ProjectRoot root];
    Invoke CodeExtractor [ProjectRoot root];
    Invoke FileStructureAnalyzer [ProjectRoot root] ].

Definition allAnalyzers : list Analyzer :=
  [TechStackAnalyzer; ArchitectureAnalyzer; CodeExtractor; FileStructureAnalyzer].

(** *** Properties of traces named by the specification *)

(** Section 5: the extractor starts only once the pattern detector's
    result has been awaited, and is handed that result. *)
Definition stagedBehindDetector (t : list Event) : Prop :=
  forall before arguments after,
    t = (before ++ Invoke CodeExtractor arguments :: after)%list ->
    OutputOf ArchitectureAnalyzer ∈ arguments /\
    exists whos, AwaitAll whos ∈ before /\ ArchitectureAnalyzer ∈ whos.

(** Section 5: a delay of [ms] separates consecutive generation calls.
    [pending] says that a call has been issued with no delay since. *)
Fixpoint pausedBetweenCalls (ms : Z) (pending : bool) (t : list Event) : bool :=
  match t with
  | [] => true
  | GenerateContent _ :: rest => negb pending && pausedBetweenCalls ms true rest
  | Delay d :: rest =>
      if bool_decide (d = ms) then pausedBetweenCalls ms false rest
      else pausedBetweenCalls ms pending rest
  | _ :: rest => pausedBetweenCalls ms pending rest
  end.

(** The guides whose name without ['-architecture'] is not a key of the
    confidence map. *)
Definition mismatchedGuides : list string :=
  [ "component-architecture"; "state-management-architecture";
    "background-jobs-architecture"; "file-storage-architecture";
    "error-handling-architecture" ].

(** *** Readings of the results *)

(** [result.guide] *)
Definition resultGuide (r : GuideResult) : string :=
  match r with
  | GuideSuccess guide _ _ => guide
  | GuideError guide _ => guide
  end.

(** [result.status === 'success'] *)
Definition isSuccess (r : GuideResult) : bool :=
  match r with
  | GuideSuccess _ _ _ => true
  | GuideError _ _ => false
  end.

(** The guide a generation call was issued for. *)
Definition callOf (e : Event) : option string :=
  match e with
  | GenerateContent guide => Some guide
  | _ => None
  end.

(** The length of a pause. *)
Definition delayOf (e : Event) : option Z :=
  match e with
  | Delay ms => Some ms
  | _ => None
  end.

(** The order the comparator of [generateDocumentation] asks for: lower
    priority number first, and among equal priorities higher confidence
    first. *)
Definition comesBefore (an : Analysis) (a b : Guide) : Prop :=
  (priority a < priority b)%Z \/
  (priority a = priority b /\ guideConfidence an (name b) <= guideConfidence an (name a)).

End Generator.

(** ** The command line *)

Module Cli.
Import Js Generator.
Local Open Scope string_scope.

(** [for (let i = 0; i < args.length; i += 2) options[args[i].replace('--', '')] = args[i + 1]]:
    a flag in last position gets the value [undefined], here [None]. *)
Fixpoint parseArgs (args : list string) (options : gmap string (option string))
    : gmap string (option string) :=
  match args with
  | [] => options
  | [key] => <[String_replace "--" "" key := None]> options
  | key :: value :: rest =>
      parseArgs rest (<[String_replace "--" "" key := Some value]> options)
  end.

(** [options.key]: [undefined] when the property is missing or holds
    [undefined]. *)
Definition option_value (options : gmap string (option string)) (key : string)
    : option string :=
  match options !! key with
  | Some value => value
  | None => None
  end.

(** [new DocumentationGenerator(options)] for the parsed command line. *)
Definition generatorFor (cwd : string) (argv : list string) : State :=
  let options := parseArgs argv ∅ in
  constructor cwd (option_value options "projectRoot")
              (option_value options "configPath")
              (option_value options "outputPath").

(** [generator.run()] *)
Definition main (w : World) (cwd : string) (argv : list string)
    : Outcome (list GuideResult) * State :=
  run w (generatorFor cwd argv).

(** The property names the loop assigns, in order. *)
Fixpoint flagsOf (args : list string) : list string :=
  match args with
  | [] => []
  | [key] => [String_replace "--" "" key]
  | key :: _ :: rest => String_replace "--" "" key :: flagsOf rest
  end.

End Cli.

(** ** Inputs used as examples *)

Module Scenarios.
Import Js Scoring Generator.
Local Open Scope string_scope.

(** A project where the [components] domain has everything: two pattern
    matches, one example, a configuration entry; [testing] has a key in
    the pattern map but no match, and still one example. *)
Definition sampleStack : TechStack :=
  {| configurations := {[ "components" := JStr "tailwind.config.js" ]};
     frameworks := {[ "react" := JBool true ]} |}.

Definition sampleArchitecture : Architecture :=
  {| patterns := {[ "components" := [JStr "Button.tsx"; JStr "Card.tsx"];
                    "testing" := [] ]} |}.

Definition sampleExamples : CodeExamples :=
  {[ "components" := [JStr "export function Button() {}"];
     "testing" := [JStr "describe('Button', () => {})"] ]}.

(** The same project before its configuration entry and its example were
    found. *)
Definition bareStack : TechStack := {| configurations := ∅; frameworks := ∅ |}.

Definition bareExamples : CodeExamples := ∅.

(** What the file-structure analyzer found. *)
Definition sampleStructure : Json := JObj [("totalFiles", JNum 2)].

Definition sampleConfig : ConfigFile :=
  {| ai := Some {| rateLimitDelay := Some 100%Z |}; settings := JNull |}.

(** A world in which everything succeeds except the generation calls for
    the guides listed in [failing] and, when [promptReadable] is false,
    the read of the master prompt. *)
Definition scenario (failing : list string) (promptReadable : bool) : World :=
  {| dirname := "/app";
     path_join := fun a b => a +:+ "/" +:+ b;
     path_basename := fun p => p;
     fs_readFile := fun path =>
       if String.eqb path "/app/prompts/master-prompt.md" && negb promptReadable
       then Error "ENOENT" else Ok "data";
     fs_writeFile := fun _ _ => Ok tt;
     fs_mkdir := fun _ => Ok tt;
     JSON_parse_config := fun _ => Ok sampleConfig;
     JSON_parse_package := fun _ =>
       Ok {| package_name := Some "demo"; package_description := None |};
     new_AIClient := fun c => Ok {| client_config := c |};
     generateContent := fun _ p =>
       if bool_decide (targetGuide p ∈ failing) then Error "429 Too Many Requests"
       else Ok "# Guide";
     techStack_analyze := fun _ _ => Ok sampleStack;
     architecture_analyze := fun _ _ => Ok sampleArchitecture;
     codeExtractor_extract := fun _ _ => Ok sampleExamples;
     fileStructure_analyze := fun _ _ => Ok sampleStructure;
     validate := fun _ _ _ => Ok JNull |}.

Definition freshGenerator : State := constructor "/proj" None None None.

Definition sampleAnalysis : Analysis :=
  {| project := {| project_name := "demo";
                   project_description := "No description available";
                   project_structure := sampleStructure;
                   project_technologies := sampleStack |};
     analysis := {| analysis_techStack := sampleStack;
                    analysis_architecture := sampleArchitecture;
                    analysis_patterns := patterns sampleArchitecture;
                    analysis_examples := sampleExamples;
                    analysis_configurations := configurations sampleStack |};
     metadata := {| confidence :=
                      calculateConfidenceScores sampleStack sampleArchitecture sampleExamples;
                    completeness :=
                      calculateCompletenessScores sampleArchitecture sampleExamples |} |}.

(** The generator as [initialize] leaves it, with an empty trace. *)
Definition initialisedGenerator : State :=
  set_aiClient {| client_config := ai sampleConfig |}
    (set_config sampleConfig freshGenerator).

(** The generator as [analyzeCodebase] then leaves it, with an empty
    trace. *)
Definition analysedGenerator : State := set_analysis sampleAnalysis initialisedGenerator.

Definition twoGuides : list Guide :=
  [ {| name := "authentication-architecture"; priority := 1 |};
    {| name := "database-architecture"; priority := 2 |} ].

(** The same analysis when the file-structure analyzer resolved with
    [null]. *)
Definition unstructuredAnalysis : Analysis :=
  {| project := {| project_name := "demo";
                   project_description := "No description available";
                   project_structure := JNull;
                   project_technologies := sampleStack |};
     analysis := analysis sampleAnalysis;
     metadata := metadata sampleAnalysis |}.

Definition unstructuredGenerator : State :=
  set_analysis unstructuredAnalysis initialisedGenerator.

Definition databaseGuide : Guide := {| name := "database-architecture"; priority := 2 |}.

Definition testingGuide : Guide := {| name := "testing-architecture"; priority := 3 |}.

(** A project in which the detectors found nothing. *)
Definition bareArchitecture : Architecture := {| patterns := ∅ |}.

Definition bareAnalysis : Analysis :=
  {| project := {| project_name := "demo";
                   project_description := "No description available";
                   project_structure := sampleStructure;
                   project_technologies := bareStack |};
     analysis := {| analysis_techStack := bareStack;
                    analysis_architecture := bareArchitecture;
                    analysis_patterns := ∅;
                    analysis_examples := bareExamples;
                    analysis_configurations := ∅ |};
     metadata := {| confidence :=
                      calculateConfidenceScores bareStack bareArchitecture bareExamples;
                    completeness :=
                      calculateCompletenessScores bareArchitecture bareExamples |} |}.

(** A generator whose configuration file has no [ai] section, or one with
    [rateLimitDelay] set to 0. *)
Definition generatorWithAi (section : option AiConfig) : State :=
  set_analysis sampleAnalysis
    (set_aiClient {| client_config := section |}
       (set_config {| ai := section; settings := JNull |} freshGenerator)).

(** The world of [scenario [] true] with a configuration file that cannot
    be read, or with a code extractor that rejects. *)
Definition brokenWorld (configReadable extractorUp : bool) : World :=
  let w := scenario [] true in
  {| dirname := dirname w;
     path_join := path_join w;
     path_basename := path_basename w;
     fs_readFile := fun path =>
       if String.eqb path "./config/analysis-config.json" && negb configReadable
       then Error "ENOENT" else fs_readFile w path;
     fs_writeFile := fs_writeFile w;
     fs_mkdir := fs_mkdir w;
     JSON_parse_config := JSON_parse_config w;
     JSON_parse_package := JSON_parse_package w;
     new_AIClient := new_AIClient w;
     generateContent := generateContent w;
     techStack_analyze := techStack_analyze w;
     architecture_analyze := architecture_analyze w;
     codeExtractor_extract := fun cfg root =>
       if extractorUp then codeExtractor_extract w cfg root else Error "EACCES";
     fileStructure_analyze := fileStructure_analyze w;
     validate := validate w |}.

(** The world of [scenario [] true] with a file-structure analyzer that
    resolves with [null]. *)
Definition unstructuredWorld : World :=
  let w := scenario [] true in
  {| dirname := dirname w;
     path_join := path_join w;
     path_basename := path_basename w;
     fs_readFile := fs_readFile w;
     fs_writeFile := fs_writeFile w;
     fs_mkdir := fs_mkdir w;
     JSON_parse_config := JSON_parse_config w;
     JSON_parse_package := JSON_parse_package w;
     new_AIClient := new_AIClient w;
     generateContent := generateContent w;
     techStack_analyze := techStack_analyze w;
     architecture_analyze := architecture_analyze w;
     codeExtractor_extract := codeExtractor_extract w;
     fileStructure_analyze := fun _ _ => Ok JNull;
     validate := validate w |}.

End Scenarios.

(** * Properties *)

Import Js Scoring Generator.

(** ** The clamp [Math.min(x, 1.0)] *)

Section Clamp.
Local Open Scope Q_scope.

Lemma Qmin_below (x y : Q) : x <= y -> Qmin x y = x.
Proof.
  intros Hle. unfold Qmin, GenericMinMax.gmin.
  destruct (x ?= y) eqn:Hc; try reflexivity.
  apply Qgt_alt in Hc. exfalso. apply (Qlt_not_le _ _ Hc Hle).
Qed.

Lemma Qmin_one_range (x : Q) : 0 <= x -> 0 <= Qmin x 1.0 <= 1.
Proof.
  intros Hx. split.
  - apply Q.min_glb; [exact Hx | discriminate].
  - apply (Qle_trans _ 1.0); [apply Q.le_min_r | discriminate].
Qed.

End Clamp.

(** ** Objects filled key by key *)

Section FilledObjects.
Context {V : Type}.
Implicit Types (f : string -> V) (keys : list string) (m : gmap string V).

Lemma fill_lookup f keys m k :
  foldl (fun scores d => <[d := f d]> scores) m keys !! k
  = if decide (k ∈ keys) then Some (f k) else m !! k.
Proof.
  revert m. induction keys as [|d keys IH]; intros m; simpl.
  - destruct (decide (k ∈ [])) as [Hin|_]; [by apply elem_of_nil in Hin | done].
  - rewrite IH. destruct (decide (k ∈ keys)) as [Hin|Hout].
    + rewrite decide_True; [done | by right].
    + destruct (decide (k = d)) as [->|Hne].
      * rewrite lookup_insert_eq. rewrite decide_True; [done | by left].
      * rewrite lookup_insert_ne by done.
        rewrite decide_False; [done |].
        intros [?|?]%elem_of_cons; contradiction.
Qed.

(** Two enumerations of the same keys fill the same object. *)
Lemma fill_enumeration f g keys1 keys2 :
  (forall k, k ∈ keys1 <-> k ∈ keys2) ->
  (forall k, k ∈ keys1 -> f k = g k) ->
  foldl (fun scores d => <[d := f d]> scores) (∅ : gmap string V) keys1
  = foldl (fun scores d => <[d := g d]> scores) ∅ keys2.
Proof.
  intros Hkeys Hfg. apply map_eq. intros k. rewrite !fill_lookup.
  destruct (decide (k ∈ keys1)) as [Hin|Hout].
  - rewrite decide_True by (by apply Hkeys). by rewrite Hfg.
  - rewrite decide_False; [done |]. intros Hin. by apply Hout, Hkeys.
Qed.

Lemma Object_keys_spec (obj : gmap string V) k : k ∈ Object_keys obj <-> is_Some (obj !! k).
Proof.
  unfold Object_keys. rewrite list_elem_of_fmap. split.
  - intros [[k' v] [-> Hin]]. apply elem_of_map_to_list in Hin. by exists v.
  - intros [v Hv]. exists (k, v). split; [done |]. by apply elem_of_map_to_list.
Qed.

End FilledObjects.

(** ** Confidence *)

Section Confidence.
Local Open Scope Q_scope.
Implicit Types (ts : TechStack) (arch : Architecture) (ex : CodeExamples).

Lemma length_positive_count {A} (prop : option (list A)) :
  length_positive prop = bool_decide (1 <= length (or_empty prop))%nat.
Proof.
  destruct prop as [arr|]; simpl.
  - apply bool_decide_ext. lia.
  - reflexivity.
Qed.

Lemma defined_is_Some {A} (prop : option A) : defined prop = bool_decide (is_Some prop).
Proof.
  destruct prop; reflexivity.
Qed.

(** The three tests of the callback are the three predicates of the
    specification. *)
Lemma domainSum_evidence ts arch ex domain :
  domainSum ts arch ex domain
  = confidenceSum (bool_decide (1 <= patternMatchCount arch domain)%nat)
                  (bool_decide (1 <= acceptedExampleCount ex domain)%nat)
                  (bool_decide (hasDetectedConfiguration ts domain)).
Proof.
  unfold domainSum. by rewrite !length_positive_count, defined_is_Some.
Qed.

Lemma confidence_lookup ts arch ex domain :
  calculateConfidenceScores ts arch ex !! domain
  = if decide (domain ∈ domains) then Some (domainConfidence ts arch ex domain) else None.
Proof.
  unfold calculateConfidenceScores.
  rewrite (fill_lookup (domainConfidence ts arch ex)).
  by rewrite lookup_empty.
Qed.

Lemma confidenceSum_bounds (p e c : bool) :
  0 <= confidenceSum p e c /\ confidenceSum p e c <= 1.0.
Proof. destruct p, e, c; split; vm_compute; discriminate. Qed.

Lemma confidenceSum_formula (p e c : bool) :
  Qmin (confidenceSum p e c) 1.0
  == clamp01 (0.4 * (if p then 1 else 0) + 0.4 * (if e then 1 else 0)
              + 0.2 * (if c then 1 else 0)).
Proof. destruct p, e, c; vm_compute; reflexivity. Qed.

Lemma confidenceSum_monotone (p e c p' e' c' : bool) :
  (p -> p') -> (e -> e') -> (c -> c') ->
  Qmin (confidenceSum p e c) 1.0 <= Qmin (confidenceSum p' e' c') 1.0.
Proof.
  intros Hp He Hc.
  destruct p, e, c, p', e', c';
    try (exfalso; first [by apply Hp | by apply He | by apply Hc]);
    vm_compute; discriminate.
Qed.

Lemma confidenceSum_values (p e c : bool) :
  let score := confidenceSum p e c in
  score == 0 \/ score == 0.2 \/ score == 0.4 \/ score == 0.6 \/ score == 0.8 \/ score == 1.0.
Proof.
  destruct p, e, c; vm_compute;
    first [ left; reflexivity
          | right; left; reflexivity
          | do 2 right; left; reflexivity
          | do 3 right; left; reflexivity
          | do 4 right; left; reflexivity
          | do 5 right; reflexivity ].
Qed.

(** C1. For each of the ten fixed domains the computed confidence is
    0.4 if the domain has a pattern match, plus 0.4 if it has an accepted
    example, plus 0.2 if a configuration was detected, clamped to [0,1]. *)
Theorem confidence_formula ts arch ex domain :
  domain ∈ domains ->
  exists score,
    calculateConfidenceScores ts arch ex !! domain = Some score /\
    score == specConfidence ts arch ex domain /\
    0 <= score <= 1.
Proof.
  intros Hin. exists (domainConfidence ts arch ex domain).
  rewrite confidence_lookup, decide_True by done.
  split; [done |]. unfold domainConfidence. rewrite domainSum_evidence. split.
  - rewrite confidenceSum_formula. unfold specConfidence, indicator.
    rewrite !bool_decide_decide.
    by destruct (decide (1 <= patternMatchCount arch domain)%nat),
                (decide (1 <= acceptedExampleCount ex domain)%nat),
                (decide (hasDetectedConfiguration ts domain)).
  - apply Qmin_one_range. apply confidenceSum_bounds.
Qed.

(** C7. With the domain fixed, the confidence does not decrease when
    any of the three predicates goes from false to true. *)
Theorem confidence_monotone ts1 ts2 arch1 arch2 ex1 ex2 domain :
  domain ∈ domains ->
  (1 <= patternMatchCount arch1 domain -> 1 <= patternMatchCount arch2 domain)%nat ->
  (1 <= acceptedExampleCount ex1 domain -> 1 <= acceptedExampleCount ex2 domain)%nat ->
  (hasDetectedConfiguration ts1 domain -> hasDetectedConfiguration ts2 domain) ->
  exists before after,
    calculateConfidenceScores ts1 arch1 ex1 !! domain = Some before /\
    calculateConfidenceScores ts2 arch2 ex2 !! domain = Some after /\
    before <= after.
Proof.
  intros Hin Hp He Hc.
  exists (domainConfidence ts1 arch1 ex1 domain), (domainConfidence ts2 arch2 ex2 domain).
  rewrite !confidence_lookup, !decide_True by done.
  split; [done |]. split; [done |].
  unfold domainConfidence. rewrite !domainSum_evidence.
  apply confidenceSum_monotone; rewrite !Is_true_true, !bool_decide_eq_true; assumption.
Qed.

(** C10. The computed confidence is one of 0, 0.2, 0.4, 0.6, 0.8, 1.0,
    and [Math.min] returns its first argument unchanged: the sum never
    exceeds 1. *)
Theorem confidence_values ts arch ex domain :
  domain ∈ domains ->
  exists score,
    calculateConfidenceScores ts arch ex !! domain = Some score /\
    (score == 0 \/ score == 0.2 \/ score == 0.4 \/
     score == 0.6 \/ score == 0.8 \/ score == 1.0) /\
    score = domainSum ts arch ex domain /\
    domainSum ts arch ex domain <= 1.
Proof.
  intros Hin. exists (domainConfidence ts arch ex domain).
  rewrite confidence_lookup, decide_True by done.
  split; [done |].
  assert (Hle : domainSum ts arch ex domain <= 1.0).
  { rewrite domainSum_evidence. apply confidenceSum_bounds. }
  assert (Heq : domainConfidence ts arch ex domain = domainSum ts arch ex domain).
  { unfold domainConfidence. by apply Qmin_below. }
  split; [| split; [exact Heq |]].
  - rewrite Heq, domainSum_evidence. apply confidenceSum_values.
  - apply (Qle_trans _ 1.0); [exact Hle | discriminate].
Qed.

End Confidence.

(** ** Completeness *)

Section Completeness.
Local Open Scope Q_scope.
Implicit Types (arch : Architecture) (ex : CodeExamples).

Lemma completenessOver_lookup keys arch ex domain :
  completenessOver keys arch ex !! domain
  = if decide (domain ∈ keys) then Some (domainCompleteness arch ex domain) else None.
Proof.
  unfold completenessOver.
  rewrite (fill_lookup (domainCompleteness arch ex)).
  by rewrite lookup_empty.
Qed.

(** The order in which [Object.keys] lists the domains does not matter. *)
Lemma completeness_enumeration keys arch ex :
  (forall k, k ∈ keys <-> is_Some (patterns arch !! k)) ->
  completenessOver keys arch ex = calculateCompletenessScores arch ex.
Proof.
  intros Hkeys. apply fill_enumeration; [| done].
  intros k. by rewrite Hkeys, Object_keys_spec.
Qed.

Lemma completeness_lookup arch ex domain :
  calculateCompletenessScores arch ex !! domain
  = match patterns arch !! domain with
    | Some _ => Some (domainCompleteness arch ex domain)
    | None => None
    end.
Proof.
  unfold calculateCompletenessScores. rewrite completenessOver_lookup.
  destruct (patterns arch !! domain) as [matches|] eqn:Hm.
  - rewrite decide_True; [done |]. apply Object_keys_spec. by rewrite Hm.
  - rewrite decide_False; [done |]. rewrite Object_keys_spec, Hm. apply is_Some_None.
Qed.

Lemma ratio_nonneg (e p : nat) :
  0 <= inject_Z (Z.of_nat e) / inject_Z (Z.of_nat (Nat.max p 1)).
Proof.
  apply Qle_shift_div_l.
  - change 0 with (inject_Z 0). rewrite <- Zlt_Qlt. lia.
  - rewrite Qmult_0_l. change 0 with (inject_Z 0). rewrite <- Zle_Qle. lia.
Qed.

Lemma ratio_zero (e p : nat) :
  inject_Z (Z.of_nat e) / inject_Z (Z.of_nat (Nat.max p 1)) == 0 <-> e = 0%nat.
Proof.
  split.
  - intros Hz. destruct e as [|e]; [done | exfalso].
    assert (Hpos : 0 < inject_Z (Z.of_nat (S e)) / inject_Z (Z.of_nat (Nat.max p 1))).
    { apply Qlt_shift_div_l.
      - change 0 with (inject_Z 0). rewrite <- Zlt_Qlt. lia.
      - rewrite Qmult_0_l. change 0 with (inject_Z 0). rewrite <- Zlt_Qlt. lia. }
    rewrite Hz in Hpos. by apply Qlt_irrefl in Hpos.
  - intros ->. unfold Qdiv. apply Qmult_0_l.
Qed.

Lemma clamped_ratio (x : Q) : 0 <= x -> Qmin x 1.0 == clamp01 x.
Proof.
  intros Hx. unfold clamp01.
  assert (H1 : Qmin x 1.0 == Qmin x 1) by (apply Q.min_compat; reflexivity).
  rewrite H1. symmetry. apply Q.max_r. apply Q.min_glb; [exact Hx | discriminate].
Qed.

Lemma clamped_zero (x : Q) : 0 <= x -> (Qmin x 1.0 == 0 <-> x == 0).
Proof.
  intros Hx. split; intros Hz.
  - destruct (Q.min_spec x 1.0) as [[_ Heq]|[_ Heq]]; rewrite Heq in Hz.
    + exact Hz.
    + discriminate Hz.
  - rewrite Hz. reflexivity.
Qed.

(** C2, as the code has it.  For every key of the pattern map the
    completeness is 0 when the domain has no pattern match, whatever the
    number of examples, and otherwise the ratio of accepted examples to
    pattern matches clamped to [0,1]; it lies in [0,1], and with at least
    one match it is 0 exactly when there is no accepted example. *)
Theorem completeness_guarded arch ex domain matches :
  patterns arch !! domain = Some matches ->
  exists score,
    calculateCompletenessScores arch ex !! domain = Some score /\
    score == (if decide (matches = []) then 0 else specCompleteness arch ex domain) /\
    0 <= score <= 1 /\
    (matches <> [] -> (score == 0 <-> acceptedExampleCount ex domain = 0%nat)).
Proof.
  intros Hm. exists (domainCompleteness arch ex domain).
  rewrite completeness_lookup, Hm. split; [done |].
  unfold domainCompleteness, specCompleteness, patternMatchCount, acceptedExampleCount.
  rewrite Hm. simpl or_empty.
  set (e := length (or_empty (ex !! domain))).
  destruct matches as [|m matches].
  - rewrite bool_decide_eq_false_2 by (simpl; lia).
    rewrite decide_True by done.
    repeat split; try reflexivity; try discriminate. by intros [].
  - rewrite bool_decide_eq_true_2 by (simpl; lia).
    rewrite decide_False by done.
    pose proof (ratio_nonneg e (length (m :: matches))) as Hnn.
    split; [by apply clamped_ratio |].
    split; [by apply Qmin_one_range |].
    intros _. rewrite clamped_zero by done. apply ratio_zero.
Qed.

End Completeness.

(** ** Determinism of the scorers *)

Section Determinism.
Implicit Types (ts : TechStack) (arch : Architecture) (ex : CodeExamples).

Lemma sameEvidence_refl ts arch ex : sameEvidence ts ts arch arch ex ex.
Proof. split; [done |]. intros domain. repeat split; auto. Qed.

Lemma sameEvidence_sum ts1 ts2 arch1 arch2 ex1 ex2 domain :
  sameEvidence ts1 ts2 arch1 arch2 ex1 ex2 ->
  domainSum ts1 arch1 ex1 domain = domainSum ts2 arch2 ex2 domain.
Proof.
  intros [_ Hsame]. destruct (Hsame domain) as (Hp & He & Hc).
  rewrite !domainSum_evidence, Hp, He. f_equal. by apply bool_decide_ext.
Qed.

Lemma sameEvidence_completeness ts1 ts2 arch1 arch2 ex1 ex2 domain :
  sameEvidence ts1 ts2 arch1 arch2 ex1 ex2 ->
  domainCompleteness arch1 ex1 domain = domainCompleteness arch2 ex2 domain.
Proof.
  intros [_ Hsame]. destruct (Hsame domain) as (Hp & He & _).
  unfold domainCompleteness.
  unfold patternMatchCount in Hp. unfold acceptedExampleCount in He.
  by rewrite Hp, He.
Qed.

(** C8. The two score maps are functions of the detector outputs alone,
    and of no more than the per-domain evidence in them: runs on identical
    outputs, or on outputs with the same keys, counts and detected
    configurations, give identical score maps. *)
Theorem scoring_deterministic ts1 ts2 arch1 arch2 ex1 ex2 :
  sameEvidence ts1 ts2 arch1 arch2 ex1 ex2 ->
  calculateConfidenceScores ts1 arch1 ex1 = calculateConfidenceScores ts2 arch2 ex2 /\
  calculateCompletenessScores arch1 ex1 = calculateCompletenessScores arch2 ex2.
Proof.
  intros Hsame. split.
  - apply fill_enumeration; [done |]. intros domain _.
    unfold domainConfidence. by rewrite (sameEvidence_sum _ _ _ _ _ _ _ Hsame).
  - apply fill_enumeration.
    + intros k. rewrite !Object_keys_spec, <- !elem_of_dom.
      destruct Hsame as [Hdom _]. by rewrite Hdom.
    + intros domain _. by apply (sameEvidence_completeness ts1 ts2).
Qed.

End Determinism.

(** ** The generation loop *)

(** Unfolds the methods of a loop turn down to the state they act on. *)
Ltac unfold_turn :=
  unfold turnResults, turnTrace, generateOne, generateGuide, rateLimitPause, delay,
    writeFile, readFile, results_push, emit, try_catch, await, throw, gets, modify,
    mbind, M_bind, mret, M_ret.

(** Closes a goal that compares two explicit states. *)
Ltac same_state :=
  unfold extend, blank, record, set_results; cbn;
  rewrite <- ?app_assoc, ?app_nil_r; reflexivity.

Section Loop.
Local Open Scope string_scope.
Variable w : World.
Variable a : Analysis.
Variable masterPrompt : string.

Lemma blank_extend s rs evs : blank (extend s rs evs) = blank s.
Proof. reflexivity. Qed.

Lemma extend_nothing s : extend s [] [] = s.
Proof. destruct s. same_state. Qed.

Lemma extend_extend s rs evs rs' evs' :
  extend (extend s rs evs) rs' evs' = extend s (rs ++ rs')%list (evs ++ evs')%list.
Proof. same_state. Qed.

(** A turn always returns, and only appends to the two logs. *)
Lemma generateOne_extend guide s :
  generateOne w a masterPrompt guide s
  = (Returned tt, extend s (turnResults w a masterPrompt s guide)
                           (turnTrace w a masterPrompt s guide)).
Proof.
  destruct s as [root cp out cfg an cl rs tr]. unfold_turn. cbn.
  destruct cl as [client|]; cbn; [| same_state].
  destruct (generateContent w client _) as [content|e]; cbn; [| same_state].
  destruct (fs_writeFile w _ _) as [[]|e]; cbn; [| same_state].
  destruct cfg as [[[aiConfig|] ?]|]; cbn; same_state.
Qed.

Lemma for_of_generateOne guides s :
  for_of guides (generateOne w a masterPrompt) s
  = (Returned tt, extend s (mjoin (turnResults w a masterPrompt s <$> guides))
                           (mjoin (turnTrace w a masterPrompt s <$> guides))).
Proof.
  revert s. induction guides as [|guide guides IH]; intros s; simpl.
  - by rewrite extend_nothing.
  - unfold mbind, M_bind. rewrite generateOne_extend, IH, extend_extend.
    unfold turnResults, turnTrace. by rewrite !blank_extend.
Qed.

(** A turn whose generation call fails records the error and nothing else. *)
Lemma turn_failed guide s client message :
  aiClient s = Some client ->
  generateContent w client (promptFor s masterPrompt guide) = Error message ->
  turnResults w a masterPrompt s guide = [GuideError (name guide) message] /\
  turnTrace w a masterPrompt s guide = [GenerateContent (name guide)].
Proof.
  destruct s as [root cp out cfg an cl rs tr]. cbn. intros -> Hgen.
  unfold promptFor in Hgen. cbn in Hgen. unfold_turn. cbn. by rewrite Hgen.
Qed.

(** With a client in place every turn issues its generation call. *)
Lemma turn_attempted guide s client :
  aiClient s = Some client ->
  GenerateContent (name guide) ∈ turnTrace w a masterPrompt s guide.
Proof.
  destruct s as [root cp out cfg an cl rs tr]. cbn. intros ->. unfold_turn. cbn.
  destruct (generateContent w client _) as [content|e]; cbn; [| by left].
  destruct (fs_writeFile w _ _) as [[]|e]; cbn; [| by left].
  destruct cfg as [[[aiConfig|] ?]|]; cbn; by left.
Qed.

(** A turn whose generation call and file write succeed records a success. *)
Lemma turn_generated guide s client content :
  aiClient s = Some client ->
  generateContent w client (promptFor s masterPrompt guide) = Ok content ->
  fs_writeFile w (path_join w (outputPath s) (name guide +:+ ".md"))
               (GuideMarkdown content) = Ok tt ->
  GuideSuccess (name guide) (path_join w (outputPath s) (name guide +:+ ".md"))
               (guideConfidence a (name guide))
    ∈ turnResults w a masterPrompt s guide.
Proof.
  destruct s as [root cp out cfg an cl rs tr]. cbn. intros -> Hgen Hwrite.
  unfold promptFor in Hgen. cbn in Hgen. unfold_turn. cbn.
  rewrite Hgen. cbn. rewrite Hwrite. cbn.
  destruct cfg as [[[aiConfig|] ?]|]; cbn; by left.
Qed.

(** What a successful turn sends out: the call, the write, the delay. *)
Lemma turn_succeeded guide s client content aiConfig settings :
  aiClient s = Some client ->
  config s = Some {| ai := Some aiConfig; settings := settings |} ->
  generateContent w client (promptFor s masterPrompt guide) = Ok content ->
  fs_writeFile w (path_join w (outputPath s) (name guide +:+ ".md"))
               (GuideMarkdown content) = Ok tt ->
  turnTrace w a masterPrompt s guide
  = [ GenerateContent (name guide);
      WriteFile (path_join w (outputPath s) (name guide +:+ ".md"));
      Delay (Z_or (rateLimitDelay aiConfig) 100) ].
Proof.
  destruct s as [root cp out cfg an cl rs tr]. cbn. intros -> -> Hgen Hwrite.
  unfold promptFor in Hgen. cbn in Hgen. unfold_turn. cbn.
  rewrite Hgen. cbn. by rewrite Hwrite.
Qed.

(** Every entry a turn records carries the guide's name and, on success,
    the confidence looked up under the guide's stripped name. *)
Lemma turn_entries guide s r :
  r ∈ turnResults w a masterPrompt s guide ->
  (exists path, r = GuideSuccess (name guide) path (guideConfidence a (name guide))) \/
  (exists error, r = GuideError (name guide) error).
Proof.
  destruct s as [root cp out cfg an cl rs tr]. unfold_turn. cbn.
  destruct cl as [client|]; cbn.
  2: { intros ->%list_elem_of_singleton. right. eauto. }
  destruct (generateContent w client _) as [content|e]; cbn.
  2: { intros ->%list_elem_of_singleton. right. eauto. }
  destruct (fs_writeFile w _ _) as [[]|e]; cbn.
  2: { intros ->%list_elem_of_singleton. right. eauto. }
  destruct cfg as [[[aiConfig|] ?]|]; cbn;
    rewrite ?elem_of_cons, ?elem_of_nil; intros Hr;
    repeat destruct Hr as [->|Hr]; try done; eauto.
Qed.

(** C5. In a batch, a guide whose generation call fails is recorded as
    an error, the loop runs to its end, and every later guide is still
    attempted, and recorded as generated when its own call and write
    succeed. *)
Theorem failed_guide_does_not_block client message before failed after s :
  aiClient s = Some client ->
  generateContent w client (promptFor s masterPrompt failed) = Error message ->
  let batch := for_of (before ++ failed :: after)%list (generateOne w a masterPrompt) s in
  batch.1 = Returned tt /\
  results batch.2
  = (results s ++ mjoin (turnResults w a masterPrompt s <$> before)
       ++ GuideError (name failed) message
       :: mjoin (turnResults w a masterPrompt s <$> after))%list /\
  (forall guide, guide ∈ after -> GenerateContent (name guide) ∈ trace batch.2) /\
  (forall guide content,
     guide ∈ after ->
     generateContent w client (promptFor s masterPrompt guide) = Ok content ->
     fs_writeFile w (path_join w (outputPath s) (name guide +:+ ".md"))
                  (GuideMarkdown content) = Ok tt ->
     GuideSuccess (name guide) (path_join w (outputPath s) (name guide +:+ ".md"))
                  (guideConfidence a (name guide)) ∈ results batch.2).
Proof.
  intros Hclient Hfail batch. subst batch. rewrite for_of_generateOne. cbn.
  destruct (turn_failed failed s client message Hclient Hfail) as [Hres Htrace].
  rewrite !fmap_app, !fmap_cons, !join_app.
  change (mjoin (?l :: ?ls)) with (l ++ mjoin ls)%list. rewrite Hres, Htrace.
  repeat split.
  - intros guide Hin. rewrite !elem_of_app. right. right. right.
    apply list_elem_of_join.
    exists (turnTrace w a masterPrompt s guide).
    split; [by eapply turn_attempted |]. by apply list_elem_of_fmap_2.
  - intros guide content Hin Hgen Hwrite. rewrite !elem_of_app. right. right. right.
    apply list_elem_of_join.
    exists (turnResults w a masterPrompt s guide).
    split; [by eapply turn_generated |]. by apply list_elem_of_fmap_2.
Qed.

End Loop.

(** ** Confidence attached to a guide *)

(** Unfolds [generateDocumentation] and what it calls outside the loop. *)
Ltac unfold_generate :=
  unfold generateDocumentation, loadMasterPrompt, generateIndex, createIndexContent,
    writeFile, readFile, emit, await, throw, gets, modify, mbind, M_bind, mret, M_ret.

Section GuideConfidence.
Local Open Scope string_scope.
Variable w : World.

Lemma mismatched_not_domain guide :
  guide ∈ mismatchedGuides -> String_replace "-architecture" "" guide ∉ domains.
Proof.
  unfold mismatchedGuides. rewrite !elem_of_cons, elem_of_nil.
  intros Hg. repeat destruct Hg as [->|Hg]; try done;
    apply (bool_decide_eq_false_1 (_ ∈ domains)); vm_compute; reflexivity.
Qed.

(** These are the guides of the fixed list whose stripped name is not a
    domain key; the other five keep their domain's score. *)
Lemma mismatched_are_unmatched :
  name <$> filter (fun g => String_replace "-architecture" "" (name g) ∉ domains) guides
  = mismatchedGuides.
Proof. vm_compute. reflexivity. Qed.

Lemma mismatched_confidence ts arch ex a guide :
  confidence (metadata a) = calculateConfidenceScores ts arch ex ->
  guide ∈ mismatchedGuides ->
  guideConfidence a guide = 0%Q.
Proof.
  intros Hconf Hg. unfold guideConfidence.
  rewrite Hconf, confidence_lookup, decide_False; [done |].
  by apply mismatched_not_domain.
Qed.

(** What [generateDocumentation] returns is what the turns of the loop
    recorded, in sorted order. *)
Lemma generateDocumentation_results a s rs s' :
  this_analysis s = Some a ->
  generateDocumentation w s = (Returned rs, s') ->
  exists masterPrompt s0,
    rs = mjoin (turnResults w a masterPrompt s0 <$> Array_sort (compareGuides a) guides).
Proof.
  intros Ha. unfold_generate. rewrite Ha.
  destruct (fs_readFile w _) as [masterPrompt|e]; [| discriminate].
  set (s1 := set_results [] (record (ReadFile _) s)).
  rewrite (for_of_generateOne w a masterPrompt _ s1).
  set (s2 := extend s1 _ _).
  replace (this_analysis s2) with (Some a) by (by subst s2 s1).
  destruct (nullish (project_structure (project a))); [discriminate |].
  destruct (fs_writeFile w _ _) as [[]|e]; [| discriminate].
  intros [= <- _]. exists masterPrompt, s1. by subst s2 s1.
Qed.

Lemma zero_percent : toFixed0 (0 * 100) = 0%Z /\ emojiFor 0 = Red.
Proof. split; reflexivity. Qed.

(** C9. For the five guides whose name without ['-architecture'] is not
    one of the ten domain keys, the confidence used to order the guides,
    the confidence stored in the guide's result and the percentage shown
    in the index are all 0, whatever the detectors found. *)
Theorem mismatched_guides_confidence_zero ts arch ex a s guide :
  confidence (metadata a) = calculateConfidenceScores ts arch ex ->
  this_analysis s = Some a ->
  guide ∈ mismatchedGuides ->
  guideConfidence a guide = 0%Q /\
  (forall rs s' path c,
     generateDocumentation w s = (Returned rs, s') ->
     GuideSuccess guide path c ∈ rs -> c = 0%Q) /\
  (forall rs s' entry,
     generateDocumentation w s = (Returned rs, s') ->
     entry ∈ successfulGuides (indexGuides rs) ->
     entry_guide entry = guide ->
     entry_percent entry = 0%Z /\ entry_emoji entry = Red).
Proof.
  intros Hconf Ha Hguide.
  pose proof (mismatched_confidence ts arch ex a guide Hconf Hguide) as Hzero.
  assert (Hentries : forall rs s' path c,
             generateDocumentation w s = (Returned rs, s') ->
             GuideSuccess guide path c ∈ rs -> c = 0%Q).
  { intros rs s' path c Hrun Hin.
    destruct (generateDocumentation_results a s rs s' Ha Hrun) as (mp & s0 & ->).
    apply list_elem_of_join in Hin as (turn & Hin & Hturn).
    apply list_elem_of_fmap in Hturn as (g & -> & _).
    destruct (turn_entries w a mp g s0 _ Hin) as [[path' Heq]|[e Heq]];
      [| discriminate].
    injection Heq as Hname _ ->. by rewrite <- Hname. }
  split; [exact Hzero |]. split; [exact Hentries |].
  intros rs s' entry Hrun Hin Hname. cbn in Hin.
  apply list_elem_of_omap in Hin as (r & Hr & Hentry).
  destruct r as [g path c|g e]; [| discriminate].
  injection Hentry as <-. cbn in Hname. subst g.
  rewrite (Hentries rs s' path c Hrun Hr). apply zero_percent.
Qed.

End GuideConfidence.

(** ** The pipeline *)

Ltac unfold_detect :=
  unfold detectProjectName, detectProjectDescription, readPackageJson, readFile, emit,
    try_catch, await, throw, gets, modify, mbind, M_bind, mret, M_ret.

Ltac unfold_run :=
  unfold run, initialize, loadConfig, analyzeCodebase, saveAnalysisResults,
    validateDocumentation, generateDocumentation, loadMasterPrompt, generateIndex,
    createIndexContent, writeFile, readFile, process_exit,
    emit, try_catch, await, throw, gets, modify, mbind, M_bind, mret, M_ret.

(** Simplifies a run without entering the scorers, the sort or the loop. *)
Ltac simpl_run :=
  cbn -[calculateConfidenceScores calculateCompletenessScores Array_sort guides for_of
        detectProjectName detectProjectDescription indexGuides nullish].

(** Closes a branch in which a step has failed: the steps cannot all
    succeed. *)
Ltac refute_steps :=
  let H := fresh in
  let Hval := fresh in
  intros H;
  unfold stepsSucceed, analysisPath, indexPath, promptPath in H;
  cbn [projectRoot configPath outputPath] in H;
  destruct H
    as (? & ? & ? & ? & ? & ? & ? & ? & ? & ? & ? & ? & ? & ? & ? & ? & ? & ? & ? & ? & Hval);
  try (pose proof (Hval AccuracyValidator) as [? ?];
       pose proof (Hval CompletenessValidator) as [? ?];
       pose proof (Hval ConsistencyValidator) as [? ?]);
  simplify_eq; congruence.

Ltac fatal := simpl_run; split; [reflexivity | refute_steps].

(** Closes the branch of [analyzeCodebase] in which [Promise.all] rejects:
    the stage has sent its four calls and nothing else. *)
Ltac stage_rejected :=
  exists []; simpl_run; rewrite <- !app_assoc; repeat split;
  [intros ? ?; apply not_elem_of_nil | discriminate | discriminate].

Section Pipeline.
Local Open Scope string_scope.
Variable w : World.

(** Reading [package.json] never fails the caller: both detectors catch
    everything and only leave a read in the trace. *)
Lemma detectProjectName_extend s :
  exists projectName,
    detectProjectName w s = (Returned projectName, extend s [] [ReadFile (packagePath w s)]).
Proof.
  destruct s as [root cp out cfg an cl rs tr]. unfold_detect. cbn.
  destruct (fs_readFile w _); cbn; [destruct (JSON_parse_package w _); cbn |];
    eexists; same_state.
Qed.

Lemma detectProjectDescription_extend s :
  exists description,
    detectProjectDescription w s
    = (Returned description, extend s [] [ReadFile (packagePath w s)]).
Proof.
  destruct s as [root cp out cfg an cl rs tr]. unfold_detect. cbn.
  destruct (fs_readFile w _); cbn; [destruct (JSON_parse_package w _); cbn |];
    eexists; same_state.
Qed.

(** What the two detectors return. *)
Lemma detectProjectName_returns s :
  detectProjectName w s
  = (Returned (projectNameOf w (projectRoot s)), extend s [] [ReadFile (packagePath w s)]).
Proof.
  destruct s as [root cp out cfg an cl rs tr].
  unfold projectNameOf, packageJsonOf, packagePath. unfold_detect. cbn.
  destruct (fs_readFile w _); cbn; [destruct (JSON_parse_package w _); cbn |]; same_state.
Qed.

Lemma detectProjectDescription_returns s :
  detectProjectDescription w s
  = (Returned (projectDescriptionOf w (projectRoot s)),
     extend s [] [ReadFile (packagePath w s)]).
Proof.
  destruct s as [root cp out cfg an cl rs tr].
  unfold projectDescriptionOf, packageJsonOf, packagePath. unfold_detect. cbn.
  destruct (fs_readFile w _); cbn; [destruct (JSON_parse_package w _); cbn |]; same_state.
Qed.

(** The outcome of a whole run, by cases on the steps outside the loop. *)
Lemma run_cases s :
  match (run w s).1 with
  | Returned _ => stepsSucceed w s
  | Exited c => c = 1%Z /\ ~ stepsSucceed w s
  | Threw _ => False
  end.
Proof.
  destruct s as [root cp out cfg an cl rs tr]. unfold_run. simpl_run.
  destruct (fs_readFile w cp) as [data|e] eqn:Hread; [| fatal]. simpl_run.
  destruct (JSON_parse_config w data) as [c|e] eqn:Hparse; [| fatal]. simpl_run.
  destruct (new_AIClient w (ai c)) as [client|e] eqn:Hclient; [| fatal]. simpl_run.
  destruct (fs_mkdir w out) as [[]|e] eqn:Hmkdir; [| fatal]. simpl_run.
  destruct (techStack_analyze w (Some c) root) as [ts|e] eqn:Hts; [| fatal].
  destruct (architecture_analyze w (Some c) root) as [arch|e] eqn:Harch; [| fatal].
  destruct (codeExtractor_extract w (Some c) root) as [ex|e] eqn:Hex; [| fatal].
  destruct (fileStructure_analyze w (Some c) root) as [structure|e] eqn:Hfs; [| fatal].
  simpl_run.
  rewrite detectProjectName_returns. simpl_run.
  rewrite detectProjectDescription_returns. simpl_run.
  change (Build_Analysis _ _ _) with (analysisOf w root ts arch ex structure).
  set (a := analysisOf w root ts arch ex structure).
  destruct (fs_writeFile w (path_join w out "analysis-results.json") _)
    as [[]|e] eqn:Hsave; [| subst a; fatal].
  simpl_run.
  destruct (fs_readFile w (path_join w (path_join w (dirname w) "prompts")
                                     "master-prompt.md"))
    as [masterPrompt|e] eqn:Hprompt; [| subst a; fatal].
  simpl_run. rewrite for_of_generateOne. simpl_run.
  match goal with |- context [turnResults w a masterPrompt ?S] =>
    change (turnResults w a masterPrompt S)
      with (turnResults w a masterPrompt
              (generationState
                 {| projectRoot := root; configPath := cp; outputPath := out; config := cfg;
                    this_analysis := an; aiClient := cl; results := rs; trace := tr |}
                 c client a))
  end.
  match goal with |- context [mjoin (?f <$> Array_sort (compareGuides a) guides)] =>
    change (mjoin (f <$> Array_sort (compareGuides a) guides))
      with (batchResults w
              {| projectRoot := root; configPath := cp; outputPath := out; config := cfg;
                 this_analysis := an; aiClient := cl; results := rs; trace := tr |}
              c client a masterPrompt)
  end.
  change (project_structure (project a)) with structure.
  destruct (nullish structure) eqn:Hnull; [subst a; fatal |].
  simpl_run.
  destruct (fs_writeFile w (path_join w out "README.md") _) as [[]|e] eqn:Hindex;
    [| subst a; fatal].
  simpl_run.
  destruct (validate w AccuracyValidator (Some c) out) as [r1|e] eqn:Hv1; [| subst a; fatal].
  destruct (validate w CompletenessValidator (Some c) out) as [r2|e] eqn:Hv2;
    [| subst a; fatal].
  destruct (validate w ConsistencyValidator (Some c) out) as [r3|e] eqn:Hv3;
    [| subst a; fatal].
  simpl_run.
  exists data, c, client, ts, arch, ex, structure, masterPrompt.
  unfold analysisPath, indexPath, promptPath. cbn [projectRoot configPath outputPath].
  repeat split; eauto. intros []; eauto.
Qed.

(** C4, as the code has it.  The command ends with status 0 or 1, and
    with 0 exactly when every step outside the per-guide [try] succeeds:
    reading and parsing the configuration, building the client, creating
    the output directory, the four analyzers, saving the analysis, reading
    the master prompt, rendering the index (which throws when the
    file-structure result is [null]), writing the index, the three
    validators.  A failure of any of them, before or after the analysis was
    produced, ends it with 1; no outcome of a generation call or of a guide
    write is among the steps. *)
Theorem exit_status_by_steps s :
  (exit_status (run w s).1 = 0%Z \/ exit_status (run w s).1 = 1%Z) /\
  (exit_status (run w s).1 = 0%Z <-> stepsSucceed w s) /\
  (exit_status (run w s).1 = 1%Z <-> ~ stepsSucceed w s).
Proof.
  pose proof (run_cases s) as Hrun.
  destruct (run w s).1 as [rs|e|c]; cbn.
  - repeat split; auto; done.
  - done.
  - destruct Hrun as [-> Hnot]. repeat split; auto; done.
Qed.

(** C3, as the code has it.  The four analyzers are invoked in one
    stage, each with the project root as its only argument, before any of
    them has been awaited; the examples kept in the analysis are what the
    extractor returned for the root. *)
Theorem analyzers_single_stage s :
  let stage := analyzeCodebase w s in
  exists rest,
    trace stage.2 = (trace s ++ firstStage (projectRoot s) ++ rest)%list /\
    (forall who arguments, Invoke who arguments ∉ rest) /\
    (forall a,
       stage.1 = Returned a ->
       codeExtractor_extract w (config s) (projectRoot s)
         = Ok (analysis_examples (analysis a)) /\
       exists rest', rest = AwaitAll allAnalyzers :: rest').
Proof.
  destruct s as [root cp out cfg an cl rs tr]. unfold firstStage, allAnalyzers.
  unfold_run. simpl_run.
  destruct (techStack_analyze w cfg root) as [ts|e];
    [| stage_rejected].
  destruct (architecture_analyze w cfg root) as [arch|e];
    [| stage_rejected].
  destruct (codeExtractor_extract w cfg root) as [ex|e];
    [| stage_rejected].
  destruct (fileStructure_analyze w cfg root) as [structure|e];
    [| stage_rejected].
  simpl_run.
  match goal with |- context [detectProjectName w ?S] =>
    destruct (detectProjectName_extend S) as (projectName & ->) end.
  match goal with |- context [detectProjectDescription w ?S] =>
    destruct (detectProjectDescription_extend S) as (description & ->) end.
  simpl_run.
  exists [ AwaitAll [TechStackAnalyzer; ArchitectureAnalyzer; CodeExtractor;
                     FileStructureAnalyzer];
           ReadFile (path_join w root "package.json");
           ReadFile (path_join w root "package.json");
           WriteFile (path_join w out "analysis-results.json") ].
  destruct (fs_writeFile w _ _) as [[]|e]; simpl_run; rewrite <- !app_assoc.
  - split; [reflexivity |]. split.
    + intros who arguments. rewrite !elem_of_cons, elem_of_nil.
      intros Hin. repeat destruct Hin as [Hin|Hin]; done.
    + intros a [= <-]. cbn. eauto.
  - split; [reflexivity |]. split.
    + intros who arguments. rewrite !elem_of_cons, elem_of_nil.
      intros Hin. repeat destruct Hin as [Hin|Hin]; done.
    + discriminate.
Qed.

(** The confidence map a run hands to [generateDocumentation] is always
    one computed by [calculateConfidenceScores]. *)
Lemma analyzeCodebase_metadata s a s' :
  analyzeCodebase w s = (Returned a, s') ->
  this_analysis s' = Some a /\
  exists ts arch ex,
    techStack_analyze w (config s) (projectRoot s) = Ok ts /\
    architecture_analyze w (config s) (projectRoot s) = Ok arch /\
    codeExtractor_extract w (config s) (projectRoot s) = Ok ex /\
    confidence (metadata a) = calculateConfidenceScores ts arch ex /\
    completeness (metadata a) = calculateCompletenessScores arch ex.
Proof.
  destruct s as [root cp out cfg an cl rs tr]. unfold_run. simpl_run.
  destruct (techStack_analyze w cfg root) as [ts|e]; [| discriminate].
  destruct (architecture_analyze w cfg root) as [arch|e]; [| discriminate].
  destruct (codeExtractor_extract w cfg root) as [ex|e]; [| discriminate].
  destruct (fileStructure_analyze w cfg root) as [structure|e]; [| discriminate].
  simpl_run.
  match goal with |- context [detectProjectName w ?S] =>
    destruct (detectProjectName_extend S) as (projectName & ->) end.
  match goal with |- context [detectProjectDescription w ?S] =>
    destruct (detectProjectDescription_extend S) as (description & ->) end.
  simpl_run.
  destruct (fs_writeFile w _ _) as [[]|e]; [| discriminate].
  intros [= <- <-]. split; [reflexivity |].
  exists ts, arch, ex. repeat split.
Qed.

(** When every turn sends the call, the write and the delay, consecutive
    calls are separated by the delay. *)
Lemma paused_when_all_succeed a masterPrompt s ms guides :
  (forall guide, guide ∈ guides ->
     exists path, turnTrace w a masterPrompt s guide
                  = [GenerateContent (name guide); WriteFile path; Delay ms]) ->
  pausedBetweenCalls ms false (mjoin (turnTrace w a masterPrompt s <$> guides)) = true.
Proof.
  induction guides as [|guide guides IH]; intros Hall; [reflexivity |].
  rewrite fmap_cons. change (mjoin (?l :: ?ls)) with (l ++ mjoin ls)%list.
  destruct (Hall guide) as [path ->]; [by left |]. cbn.
  rewrite bool_decide_eq_true_2 by done. apply IH.
  intros g Hg. apply Hall. by right.
Qed.

End Pipeline.

(** ** The confidence sum in double precision *)

Section Doubles.
Local Open Scope float_scope.
#[local] Set Warnings "-inexact-float".

(** Evaluated in doubles, the loop and the formula of section 4.5 give
    the same number. *)
Lemma binary64_formula (p e c : bool) :
  Binary64.confidence p e c = Binary64.specConfidence p e c.
Proof. destruct p, e, c; vm_compute; reflexivity. Qed.

(** [Math.min] never changes the sum in doubles either. *)
Lemma binary64_clamp_idle (p e c : bool) :
  Binary64.confidence p e c = Binary64.confidenceSum p e c.
Proof. destruct p, e, c; vm_compute; reflexivity. Qed.

Lemma binary64_monotone (p e c p' e' c' : bool) :
  (p -> p') -> (e -> e') -> (c -> c') ->
  PrimFloat.leb (Binary64.confidence p e c) (Binary64.confidence p' e' c') = true.
Proof.
  intros Hp He Hc.
  destruct p, e, c, p', e', c';
    try (exfalso; first [by apply Hp | by apply He | by apply Hc]);
    vm_compute; reflexivity.
Qed.

(** The one place where the double differs from the rational: 0.4 + 0.2
    is the double above 0.6. *)
Lemma binary64_pattern_and_config :
  Binary64.confidence true false true = 0.6000000000000001 /\
  Binary64.confidence true false true <> 0.6 /\
  Binary64.confidence true true false = 0.8 /\
  Binary64.confidence true true true = 1.
Proof. repeat split; vm_compute; congruence. Qed.

End Doubles.

(** ** The properties at the example inputs *)

Section Examples.
Import Scenarios.
Local Open Scope string_scope.

Lemma components_is_domain : "components" ∈ domains.
Proof. unfold domains. apply list_elem_of_further, list_elem_of_here. Defined.

Lemma confidence_formula_witness :
  "components" ∈ domains /\
  exists score,
    calculateConfidenceScores sampleStack sampleArchitecture sampleExamples !! "components"
      = Some score /\
    (score == specConfidence sampleStack sampleArchitecture sampleExamples "components")%Q /\
    (0 <= score <= 1)%Q.
Proof.
  split; [exact components_is_domain |].
  apply (confidence_formula sampleStack sampleArchitecture sampleExamples "components").
  exact components_is_domain.
Defined.

Lemma confidence_monotone_witness :
  exists before after,
    calculateConfidenceScores bareStack sampleArchitecture bareExamples !! "components"
      = Some before /\
    calculateConfidenceScores sampleStack sampleArchitecture sampleExamples !! "components"
      = Some after /\
    (before <= after)%Q.
Proof.
  apply (confidence_monotone bareStack sampleStack sampleArchitecture sampleArchitecture
           bareExamples sampleExamples "components").
  - exact components_is_domain.
  - intros H. exact H.
  - intros _. vm_compute. lia.
  - intros _. vm_compute. eauto.
Defined.

Lemma confidence_values_witness :
  exists score,
    calculateConfidenceScores sampleStack sampleArchitecture sampleExamples !! "components"
      = Some score /\
    (score == 0 \/ score == 0.2 \/ score == 0.4 \/
     score == 0.6 \/ score == 0.8 \/ score == 1.0)%Q /\
    score = domainSum sampleStack sampleArchitecture sampleExamples "components" /\
    (domainSum sampleStack sampleArchitecture sampleExamples "components" <= 1)%Q.
Proof.
  apply (confidence_values sampleStack sampleArchitecture sampleExamples "components").
  exact components_is_domain.
Defined.

(** The [components] domain of the example scores 1.0 and 0.5. *)
Example components_scores :
  calculateConfidenceScores sampleStack sampleArchitecture sampleExamples !! "components"
    = Some (1.000)%Q /\
  (domainCompleteness sampleArchitecture sampleExamples "components" == 0.5)%Q.
Proof. split; vm_compute; reflexivity. Qed.

(** C2 as stated fails: [testing] is a key of the pattern map with no
    match and one example; the code scores 0 where examples / max(matches, 1)
    clamped to [0,1] is 1. *)
Lemma completeness_formula_counterexample :
  calculateCompletenessScores sampleArchitecture sampleExamples !! "testing" = Some 0%Q /\
  (specCompleteness sampleArchitecture sampleExamples "testing" == 1)%Q /\
  ~ (0 == specCompleteness sampleArchitecture sampleExamples "testing")%Q.
Proof. repeat split; vm_compute; congruence. Qed.

Lemma completeness_guarded_witness :
  patterns sampleArchitecture !! "components" = Some [JStr "Button.tsx"; JStr "Card.tsx"] /\
  exists score,
    calculateCompletenessScores sampleArchitecture sampleExamples !! "components"
      = Some score /\
    (score == specCompleteness sampleArchitecture sampleExamples "components")%Q /\
    (0 <= score <= 1)%Q /\
    ~ (score == 0)%Q.
Proof.
  split; [reflexivity |].
  destruct (completeness_guarded sampleArchitecture sampleExamples "components"
              [JStr "Button.tsx"; JStr "Card.tsx"] eq_refl)
    as (score & Hlookup & Hformula & Hrange & Hzero).
  exists score. split; [exact Hlookup |]. split; [exact Hformula |].
  split; [exact Hrange |].
  intros Hscore. apply Hzero in Hscore; [| discriminate].
  vm_compute in Hscore. discriminate Hscore.
Defined.

Lemma scoring_deterministic_witness :
  calculateConfidenceScores sampleStack sampleArchitecture sampleExamples
    = calculateConfidenceScores sampleStack sampleArchitecture sampleExamples /\
  calculateCompletenessScores sampleArchitecture sampleExamples
    = calculateCompletenessScores sampleArchitecture sampleExamples.
Proof.
  apply (scoring_deterministic sampleStack sampleStack sampleArchitecture sampleArchitecture
           sampleExamples sampleExamples).
  split; [reflexivity |]. intros domain. repeat split; intros H; exact H.
Defined.

(** C3 as stated fails: the extractor is called with the project root
    alone, before anything has been awaited. *)
Lemma extraction_not_staged :
  ~ stagedBehindDetector (trace (analyzeCodebase (scenario [] true) initialisedGenerator).2).
Proof.
  intros Hstaged.
  destruct (Hstaged
              [ Invoke TechStackAnalyzer [ProjectRoot "/proj"];
                Invoke ArchitectureAnalyzer [ProjectRoot "/proj"] ]
              [ProjectRoot "/proj"]
              [ Invoke FileStructureAnalyzer [ProjectRoot "/proj"];
                AwaitAll allAnalyzers;
                ReadFile "/proj/package.json"; ReadFile "/proj/package.json";
                WriteFile "./output/generated-docs/analysis-results.json" ])
    as [Hargument _].
  - vm_compute. reflexivity.
  - apply list_elem_of_singleton in Hargument. discriminate Hargument.
Qed.

(** C4 as stated fails: the configuration parses, the project root is
    read, the analysis is produced and saved, then the master prompt
    cannot be read and the command ends with status 1. *)
Lemma fatal_after_analysis :
  let ended := run (scenario [] false) freshGenerator in
  config ended.2 = Some sampleConfig /\
  this_analysis ended.2 = Some sampleAnalysis /\
  WriteFile "./output/generated-docs/analysis-results.json" ∈ trace ended.2 /\
  exit_status ended.1 = 1%Z.
Proof.
  repeat split; try (vm_compute; reflexivity).
  vm_compute. repeat first [apply list_elem_of_here | apply list_elem_of_further].
Qed.

Lemma exit_status_by_steps_witness :
  stepsSucceed (scenario ["testing-architecture"] true) freshGenerator /\
  exit_status (run (scenario ["testing-architecture"] true) freshGenerator).1 = 0%Z.
Proof.
  assert (Hsteps : stepsSucceed (scenario ["testing-architecture"] true) freshGenerator).
  { exists "data", sampleConfig, {| client_config := ai sampleConfig |},
      sampleStack, sampleArchitecture, sampleExamples, sampleStructure, "data".
    repeat split. intros v. exists JNull. reflexivity. }
  split; [exact Hsteps |].
  exact (proj2 (proj1 (proj2 (exit_status_by_steps (scenario ["testing-architecture"] true)
                                freshGenerator))) Hsteps).
Defined.

(** A file-structure analyzer that resolves with [null] is fatal too, and
    late: the analysis is saved and all ten guides are generated and
    written, then rendering the index throws, no index is written and the
    command ends with status 1. *)
Example null_structure_is_fatal :
  let ended := run unstructuredWorld freshGenerator in
  exit_status ended.1 = 1%Z /\
  length (filter (fun r => isSuccess r = true) (results ended.2)) = 10%nat /\
  last (trace ended.2) = Some (Delay 100) /\
  ~ stepsSucceed unstructuredWorld freshGenerator.
Proof.
  repeat split; try (vm_compute; reflexivity).
  intros (data & c & client & ts & arch & ex & structure & masterPrompt & Hsteps).
  destruct Hsteps as (_ & _ & _ & _ & _ & _ & _ & Hfs & _ & _ & Hnull & _).
  injection Hfs as <-. discriminate Hnull.
Qed.

Lemma failed_guide_does_not_block_witness :
  let w := scenario ["authentication-architecture"] true in
  let batch := for_of twoGuides (generateOne w sampleAnalysis "data") analysedGenerator in
  batch.1 = Returned tt /\
  results batch.2
  = [ GuideError "authentication-architecture" "429 Too Many Requests";
      GuideSuccess "database-architecture"
                   "./output/generated-docs/database-architecture.md" 0%Q ] /\
  GenerateContent "database-architecture" ∈ trace batch.2.
Proof.
  intros w batch.
  destruct (failed_guide_does_not_block w sampleAnalysis "data"
              {| client_config := ai sampleConfig |} "429 Too Many Requests"
              [] {| name := "authentication-architecture"; priority := 1 |}
              [ {| name := "database-architecture"; priority := 2 |} ]
              analysedGenerator eq_refl eq_refl)
    as (Hreturned & Hresults & Hattempted & _).
  split; [exact Hreturned |]. split.
  - etransitivity; [exact Hresults |]. vm_compute. reflexivity.
  - exact (Hattempted {| name := "database-architecture"; priority := 2 |}
                      (list_elem_of_here _ _)).
Defined.

(** C6 fails on the code: after a generation call that fails, the next
    call is issued with no delay in between. *)
Theorem delay_skipped_after_failed_call :
  let w := scenario ["authentication-architecture"] true in
  let batch := for_of twoGuides (generateOne w sampleAnalysis "data") analysedGenerator in
  trace batch.2
  = [ GenerateContent "authentication-architecture";
      GenerateContent "database-architecture";
      WriteFile "./output/generated-docs/database-architecture.md";
      Delay 100 ] /\
  pausedBetweenCalls 100 false (trace batch.2) = false /\
  pausedBetweenCalls 100 false
    (trace (generateDocumentation w analysedGenerator).2) = false.
Proof. repeat split; vm_compute; reflexivity. Qed.

(** With no failed call the same batch pauses between its calls. *)
Example delay_after_successful_calls :
  pausedBetweenCalls 100 false
    (trace (generateDocumentation (scenario [] true) analysedGenerator).2) = true.
Proof. vm_compute. reflexivity. Qed.

Lemma mismatched_guides_confidence_zero_witness :
  let w := scenario [] true in
  calculateConfidenceScores sampleStack sampleArchitecture sampleExamples !! "components"
    = Some (1.000)%Q /\
  guideConfidence sampleAnalysis "component-architecture" = 0%Q /\
  (forall path c,
     GuideSuccess "component-architecture" path c
       ∈ (generateDocumentation w analysedGenerator).2.(results) -> c = 0%Q).
Proof.
  intros w.
  assert (Hguide : "component-architecture" ∈ mismatchedGuides) by apply list_elem_of_here.
  destruct (mismatched_guides_confidence_zero w sampleStack sampleArchitecture
              sampleExamples sampleAnalysis analysedGenerator "component-architecture"
              eq_refl eq_refl Hguide)
    as (Hzero & Hresults & _).
  split; [vm_compute; reflexivity |]. split; [exact Hzero |].
  intros path c Hin.
  apply (Hresults (generateDocumentation w analysedGenerator).2.(results)
                  (generateDocumentation w analysedGenerator).2 path c);
    [vm_compute; reflexivity | exact Hin].
Defined.

End Examples.

(** * Further properties of the code *)

(** ** The two score maps *)

Section ScoreMaps.
Import Scenarios.
Local Open Scope Q_scope.
Implicit Types (ts : TechStack) (arch : Architecture) (ex : CodeExamples).

(** X1. The confidence map has exactly the ten fixed domains as keys,
    whatever keys the detector outputs carry. *)
Theorem confidence_keys ts arch ex :
  dom (calculateConfidenceScores ts arch ex) = list_to_set domains /\
  size (calculateConfidenceScores ts arch ex) = 10%nat.
Proof.
  assert (Hdom : dom (calculateConfidenceScores ts arch ex) = list_to_set domains).
  { apply set_eq. intros key.
    rewrite elem_of_dom, confidence_lookup, elem_of_list_to_set.
    destruct (decide (key ∈ domains)) as [Hin|Hout]; split; intros H;
      first [done | by eexists | by destruct H]. }
  split; [exact Hdom |]. rewrite <- size_dom, Hdom. reflexivity.
Qed.

(** X2. The completeness map has exactly the keys of the pattern map: a
    domain that only the example map knows gets no completeness score. *)
Theorem completeness_keys arch ex :
  dom (calculateCompletenessScores arch ex) = dom (patterns arch).
Proof.
  apply set_eq. intros key.
  rewrite !elem_of_dom, completeness_lookup.
  destruct (patterns arch !! key); split; intros [? ?]; try done; eauto.
Qed.

Lemma ratio_at_least_one (e p : nat) :
  (1 <= p <= e)%nat ->
  1 <= inject_Z (Z.of_nat e) / inject_Z (Z.of_nat (Nat.max p 1)).
Proof.
  intros Hpe. apply Qle_shift_div_l.
  - change 0 with (inject_Z 0). rewrite <- Zlt_Qlt. lia.
  - rewrite Qmult_1_l. rewrite <- Zle_Qle. lia.
Qed.

Lemma ratio_at_most_one (e p : nat) :
  (e <= p)%nat ->
  inject_Z (Z.of_nat e) / inject_Z (Z.of_nat (Nat.max p 1)) <= 1.
Proof.
  intros Hpe. apply Qle_shift_div_r.
  - change 0 with (inject_Z 0). rewrite <- Zlt_Qlt. lia.
  - rewrite Qmult_1_l. rewrite <- Zle_Qle. lia.
Qed.

(** X3. For a domain with at least one pattern match, completeness is the
    exact ratio of examples to matches while there are no more examples
    than matches, and 1 from then on. *)
Theorem completeness_saturates arch ex domain matches :
  patterns arch !! domain = Some matches ->
  matches <> [] ->
  exists score,
    calculateCompletenessScores arch ex !! domain = Some score /\
    ((length matches <= acceptedExampleCount ex domain)%nat -> score == 1) /\
    ((acceptedExampleCount ex domain <= length matches)%nat ->
     score == inject_Z (Z.of_nat (acceptedExampleCount ex domain))
              / inject_Z (Z.of_nat (length matches))).
Proof.
  intros Hm Hne. exists (domainCompleteness arch ex domain).
  rewrite completeness_lookup, Hm. split; [done |].
  unfold domainCompleteness. rewrite Hm. simpl or_empty.
  fold (acceptedExampleCount ex domain).
  set (e := acceptedExampleCount ex domain). set (p := length matches).
  assert (Hp : (1 <= p)%nat) by (subst p; destruct matches; [done | simpl; lia]).
  rewrite bool_decide_eq_true_2 by lia.
  replace (Nat.max p 1) with p by lia. split; intros Hpe.
  - assert (H1 : 1.0 <= inject_Z (Z.of_nat e) / inject_Z (Z.of_nat p)).
    { apply (Qle_trans _ 1); [discriminate |].
      replace p with (Nat.max p 1) at 1 by lia. apply ratio_at_least_one. lia. }
    rewrite (Q.min_r _ _ H1). reflexivity.
  - apply Q.min_l. apply (Qle_trans _ 1); [| discriminate].
    replace p with (Nat.max p 1) by lia. by apply ratio_at_most_one.
Qed.

Lemma completeness_saturates_witness :
  exists score,
    calculateCompletenessScores sampleArchitecture sampleExamples !! "components"%string
      = Some score /\
    score == inject_Z 1 / inject_Z 2.
Proof.
  destruct (completeness_saturates sampleArchitecture sampleExamples "components"%string
              [JStr "Button.tsx"; JStr "Card.tsx"] eq_refl)
    as (score & Hlookup & _ & Hratio); [discriminate |].
  exists score. split; [exact Hlookup |]. apply Hratio. vm_compute. lia.
Defined.

End ScoreMaps.

(** ** Guide names and domain keys *)

Section GuideNames.
Import Scenarios.
Local Open Scope string_scope.

Lemma prefix_append (s t : string) : String.prefix s (s +:+ t) = true.
Proof.
  induction s as [|c s IH]; simpl; [by destruct t |].
  destruct (Ascii.ascii_dec c c); [exact IH | done].
Qed.

Lemma string_drop_append (s t : string) : string_drop (String.length s) (s +:+ t) = t.
Proof. induction s as [|c s IH]; simpl; [by destruct t | exact IH]. Qed.

Lemma append_empty (s : string) : s +:+ "" = s.
Proof.
  induction s as [|c s IH]; [done |].
  change (String c s +:+ "") with (String c (s +:+ "")). by rewrite IH.
Qed.

(** The search passes over every character that is not the first of the
    pattern. *)
Lemma replace_skips (c : ascii) (pat rep s t : string) :
  ~ In c (String.list_ascii_of_string s) ->
  String_replace (String c pat) rep (s +:+ t) = s +:+ String_replace (String c pat) rep t.
Proof.
  induction s as [|d s IH]; intros Hout; [reflexivity |].
  change (String d s +:+ t) with (String d (s +:+ t)).
  cbn [String_replace String.prefix].
  destruct (Ascii.ascii_dec c d) as [->|Hne].
  - exfalso. apply Hout. by left.
  - rewrite IH; [reflexivity |]. intros Hin. apply Hout. by right.
Qed.

Lemma replace_at_head (pat rep t : string) :
  String_replace pat rep (pat +:+ t) = rep +:+ t.
Proof.
  destruct pat as [|c pat]; [by destruct t |].
  change (String c pat +:+ t) with (String c (pat +:+ t)).
  unfold String_replace at 1. fold String_replace.
  change (String c (pat +:+ t)) with (String c pat +:+ t).
  by rewrite prefix_append, string_drop_append.
Qed.

(** X4. [name.replace('-architecture', '')] removes the first
    ['-architecture'] only: for a name that starts with a hyphen-free word
    followed by ['-architecture'], the focus area is that word followed by
    whatever came after, a second ['-architecture'] included. *)
Theorem focus_area_of_suffixed_name (domain rest : string) :
  ~ In "-"%char (String.list_ascii_of_string domain) ->
  String_replace "-architecture" "" (domain +:+ "-architecture" +:+ rest) = domain +:+ rest.
Proof.
  intros Hout. rewrite replace_skips by done. by rewrite replace_at_head.
Qed.

Lemma focus_area_of_suffixed_name_witness :
  String_replace "-architecture" "" ("database" +:+ "-architecture" +:+ "-architecture")
  = "database" +:+ "-architecture".
Proof.
  apply (focus_area_of_suffixed_name "database" "-architecture").
  cbn. intros Hin. repeat destruct Hin as [Hin|Hin]; discriminate || done.
Defined.

Lemma score_or_zero_confidence ts arch ex domain :
  score_or_zero (Some (domainConfidence ts arch ex domain))
  = domainConfidence ts arch ex domain.
Proof.
  unfold domainConfidence. rewrite domainSum_evidence.
  by destruct (bool_decide (1 <= patternMatchCount arch domain)%nat),
              (bool_decide (1 <= acceptedExampleCount ex domain)%nat),
              (bool_decide (hasDetectedConfiguration ts domain)).
Qed.

Lemma emoji_cases (p e c : bool) :
  let percent := toFixed0 (Qmin (confidenceSum p e c) 1.0 * 100) in
  percent = (40 * Z.b2z p + 40 * Z.b2z e + 20 * Z.b2z c)%Z /\
  emojiFor percent = if p && e then Green else if (p || e) && c then Yellow else Red.
Proof. destruct p, e, c; split; vm_compute; reflexivity. Qed.

(** X5. The five guides of the fixed list whose stripped name is a domain
    key carry that domain's computed confidence; in the index such a guide
    shows 40 points for pattern matches, 40 for examples and 20 for a
    configuration, in green exactly when the domain has both pattern
    matches and examples, in yellow when it has one of them and a
    configuration, in red otherwise. *)
Theorem matched_guide_score_and_colour ts arch ex a guide path :
  confidence (metadata a) = calculateConfidenceScores ts arch ex ->
  guide ∈ guides ->
  name guide ∉ mismatchedGuides ->
  let domain := String_replace "-architecture" "" (name guide) in
  let hasPatterns := bool_decide (1 <= patternMatchCount arch domain)%nat in
  let hasExamples := bool_decide (1 <= acceptedExampleCount ex domain)%nat in
  let hasConfig := bool_decide (hasDetectedConfiguration ts domain) in
  domain ∈ domains /\
  guideConfidence a (name guide) = domainConfidence ts arch ex domain /\
  successEntry (GuideSuccess (name guide) path (guideConfidence a (name guide)))
  = Some {| entry_guide := name guide;
            entry_emoji := if hasPatterns && hasExamples then Green
                           else if (hasPatterns || hasExamples) && hasConfig then Yellow
                           else Red;
            entry_percent := (40 * Z.b2z hasPatterns + 40 * Z.b2z hasExamples
                              + 20 * Z.b2z hasConfig)%Z |}.
Proof.
  intros Hconf Hguide Hmatched domain hasPatterns hasExamples hasConfig.
  assert (Hdomain : domain ∈ domains).
  { subst domain. unfold guides in Hguide.
    rewrite !elem_of_cons, elem_of_nil in Hguide.
    repeat destruct Hguide as [->|Hguide]; try done;
      first [ exfalso; apply Hmatched; cbn;
              solve [repeat first [apply list_elem_of_here | apply list_elem_of_further]]
            | apply (bool_decide_unpack _); vm_compute; exact I ]. }
  assert (Hscore : guideConfidence a (name guide) = domainConfidence ts arch ex domain).
  { unfold guideConfidence. fold domain.
    rewrite Hconf, confidence_lookup, decide_True by done.
    apply score_or_zero_confidence. }
  split; [exact Hdomain |]. split; [exact Hscore |].
  rewrite Hscore. unfold successEntry, domainConfidence. rewrite domainSum_evidence.
  fold hasPatterns hasExamples hasConfig.
  destruct (emoji_cases hasPatterns hasExamples hasConfig) as [-> ->]. reflexivity.
Qed.

Lemma matched_guide_score_and_colour_witness :
  guideConfidence sampleAnalysis "testing-architecture" = (0.4)%Q /\
  successEntry (GuideSuccess "testing-architecture" "testing-architecture.md"
                             (guideConfidence sampleAnalysis "testing-architecture"))
  = Some {| entry_guide := "testing-architecture"; entry_emoji := Red;
            entry_percent := 40 |}.
Proof.
  assert (Hguide : {| name := "testing-architecture"; priority := 3 |} ∈ guides).
  { unfold guides. do 7 apply list_elem_of_further. apply list_elem_of_here. }
  assert (Hmatched : "testing-architecture" ∉ mismatchedGuides).
  { apply (bool_decide_eq_false_1 (_ ∈ mismatchedGuides)). vm_compute. reflexivity. }
  destruct (matched_guide_score_and_colour sampleStack sampleArchitecture sampleExamples
              sampleAnalysis {| name := "testing-architecture"; priority := 3 |}
              "testing-architecture.md" eq_refl Hguide Hmatched)
    as (_ & Hscore & Hentry).
  split.
  - etransitivity; [exact Hscore |]. vm_compute. reflexivity.
  - etransitivity; [exact Hentry |]. vm_compute. reflexivity.
Defined.

End GuideNames.

(** ** The order in which guides are generated *)

(** Decides [comesBefore] between two given guides of a given analysis. *)
Ltac decide_before :=
  first [ left; cbn; lia
        | right; split; [reflexivity | vm_compute; discriminate] ].

Section Order.
Import Scenarios.
Local Open Scope Q_scope.
Variable an : Analysis.

Lemma insert_by_perm {A} (cmp : A -> A -> Q) x l : insert_by cmp x l ≡ₚ x :: l.
Proof.
  induction l as [|y l IH]; simpl; [done |].
  destruct (Qle_bool (cmp x y) 0); [done |].
  rewrite IH. apply Permutation_swap.
Qed.

Lemma Array_sort_perm {A} (cmp : A -> A -> Q) l : Array_sort cmp l ≡ₚ l.
Proof.
  unfold Array_sort. induction l as [|x l IH]; simpl; [done |].
  by rewrite insert_by_perm, IH.
Qed.

(** The comparator is non-positive exactly on pairs in the intended order. *)
Lemma compare_comesBefore a b :
  Qle_bool (compareGuides an a b) 0 = true <-> comesBefore an a b.
Proof.
  rewrite Qle_bool_iff. unfold compareGuides, comesBefore.
  case_bool_decide as Hp.
  - change 0 with (inject_Z 0). rewrite <- Zle_Qle. split; [intros; left; lia |].
    intros [?|[? _]]; [lia | done].
  - split.
    + intros Hle. right. split; [done | lra].
    + intros [?|[_ Hle]]; [lia | lra].
Qed.

Lemma comesBefore_total a b : ~ comesBefore an a b -> comesBefore an b a.
Proof.
  unfold comesBefore. intros Hnot.
  destruct (Z.lt_trichotomy (priority a) (priority b)) as [?|[Heq|?]].
  - exfalso. apply Hnot. by left.
  - right. split; [done |].
    destruct (Qlt_le_dec (guideConfidence an (name b)) (guideConfidence an (name a)))
      as [Hlt|Hle]; [| exact Hle].
    exfalso. apply Hnot. right. split; [done |]. by apply Qlt_le_weak.
  - by left.
Qed.

Lemma comesBefore_trans a b c :
  comesBefore an a b -> comesBefore an b c -> comesBefore an a c.
Proof.
  unfold comesBefore. intros [?|[? Hab]] [?|[? Hbc]].
  - left. lia.
  - left. lia.
  - left. lia.
  - right. split; [lia |]. by apply (Qle_trans _ (guideConfidence an (name b))).
Qed.

Lemma insert_by_sorted x l :
  StronglySorted (comesBefore an) l ->
  StronglySorted (comesBefore an) (insert_by (compareGuides an) x l).
Proof.
  induction 1 as [|y l Hsorted IH Hall]; simpl.
  - repeat constructor.
  - destruct (Qle_bool (compareGuides an x y) 0) eqn:Hcmp.
    + apply compare_comesBefore in Hcmp.
      constructor; [by constructor |]. constructor; [done |].
      eapply Forall_impl; [exact Hall |]. intros z Hyz. by eapply comesBefore_trans.
    + constructor; [exact IH |].
      rewrite insert_by_perm. constructor; [| exact Hall].
      apply comesBefore_total. rewrite <- compare_comesBefore. by rewrite Hcmp.
Qed.

(** X6. Sorting loses and duplicates no guide, and leaves the guides in
    ascending priority, and within one priority in descending confidence. *)
Theorem guides_processed_in_order gs :
  Array_sort (compareGuides an) gs ≡ₚ gs /\
  StronglySorted (comesBefore an) (Array_sort (compareGuides an) gs).
Proof.
  split; [apply Array_sort_perm |].
  unfold Array_sort. induction gs as [|g gs IH]; simpl; [constructor |].
  by apply insert_by_sorted.
Qed.

(** X7. A list that is already in that order is left as it is: guides of
    equal priority and equal confidence keep the order in which they are
    listed. *)
Theorem ordered_guides_unchanged gs :
  StronglySorted (comesBefore an) gs ->
  Array_sort (compareGuides an) gs = gs.
Proof.
  unfold Array_sort. induction 1 as [|g gs Hsorted IH Hall]; simpl; [done |].
  rewrite IH. destruct gs as [|g' gs]; [done |]. simpl.
  apply Forall_inv in Hall. apply compare_comesBefore in Hall. by rewrite Hall.
Qed.

End Order.

Section OrderExamples.
Import Scenarios.

(** With no evidence at all the ten guides are generated as listed. *)
Lemma ordered_guides_unchanged_witness :
  StronglySorted (comesBefore bareAnalysis) guides /\
  Array_sort (compareGuides bareAnalysis) guides = guides.
Proof.
  assert (Hsorted : StronglySorted (comesBefore bareAnalysis) guides).
  { unfold guides. repeat (constructor; [| repeat (constructor; [decide_before |]); constructor]).
    constructor. }
  split; [exact Hsorted |].
  exact (ordered_guides_unchanged bareAnalysis guides Hsorted).
Defined.

(** With the example analysis, [testing] (0.4) moves ahead of
    [error-handling] (0) inside priority 3. *)
Example sample_order :
  name <$> Array_sort (compareGuides sampleAnalysis) guides
  = [ "authentication-architecture"; "component-architecture";
      "state-management-architecture"; "background-jobs-architecture";
      "file-storage-architecture"; "database-architecture";
      "testing-architecture"; "error-handling-architecture";
      "integration-architecture"; "deployment-architecture" ]%string.
Proof. vm_compute. reflexivity. Qed.

End OrderExamples.

(** ** What a turn of the loop records *)

Section Turns.
Local Open Scope string_scope.
Variable w : World.
Variable a : Analysis.
Variable masterPrompt : string.

(** Every turn records at least one entry, and only under its guide's
    name. *)
Lemma turn_names guide s :
  turnResults w a masterPrompt s guide <> [] /\
  Forall (fun r => resultGuide r = name guide) (turnResults w a masterPrompt s guide).
Proof.
  destruct s as [root cp out cfg an cl rs tr]. unfold_turn. cbn.
  destruct cl as [client|]; cbn; [| split; [done | by repeat constructor]].
  destruct (generateContent w client _) as [content|e]; cbn;
    [| split; [done | by repeat constructor]].
  destruct (fs_writeFile w _ _) as [[]|e]; cbn; [| split; [done | by repeat constructor]].
  destruct cfg as [[[aiConfig|] ?]|]; cbn; split; try done; by repeat constructor.
Qed.

(** With an [ai] section in the configuration a turn records one entry. *)
Lemma turn_single guide s c aiConfig :
  config s = Some c -> ai c = Some aiConfig ->
  exists r, turnResults w a masterPrompt s guide = [r] /\ resultGuide r = name guide.
Proof.
  destruct s as [root cp out cfg an cl rs tr]. cbn. intros -> Hai. unfold_turn. cbn.
  destruct cl as [client|]; cbn; [| eauto].
  destruct (generateContent w client _) as [content|e]; cbn; [| eauto].
  destruct (fs_writeFile w _ _) as [[]|e]; cbn; [| eauto].
  rewrite Hai. cbn. eauto.
Qed.

(** With a client in place a turn issues one generation call. *)
Lemma turn_call guide s client :
  aiClient s = Some client ->
  omap callOf (turnTrace w a masterPrompt s guide) = [name guide].
Proof.
  destruct s as [root cp out cfg an cl rs tr]. cbn. intros ->. unfold_turn. cbn.
  destruct (generateContent w client _) as [content|e]; cbn; [| done].
  destruct (fs_writeFile w _ _) as [[]|e]; cbn; [| done].
  destruct cfg as [[[aiConfig|] ?]|]; cbn; done.
Qed.

Lemma omap_join {A B} (f : A -> option B) (ls : list (list A)) :
  omap f (mjoin ls) = mjoin (omap f <$> ls).
Proof.
  induction ls as [|l ls IH]; [done |].
  change (mjoin (l :: ls)) with (l ++ mjoin ls)%list.
  rewrite omap_app, IH. reflexivity.
Qed.

Lemma calls_of_turns s client gs :
  aiClient s = Some client ->
  omap callOf (mjoin (turnTrace w a masterPrompt s <$> gs)) = name <$> gs.
Proof.
  intros Hclient. rewrite omap_join.
  induction gs as [|g gs IH]; [done |].
  rewrite !fmap_cons. change (mjoin (?l :: ?ls)) with (l ++ mjoin ls)%list.
  by rewrite (turn_call g s client Hclient), IH.
Qed.

Lemma names_of_turns s c aiConfig gs :
  config s = Some c -> ai c = Some aiConfig ->
  resultGuide <$> mjoin (turnResults w a masterPrompt s <$> gs) = name <$> gs.
Proof.
  intros Hc Hai. induction gs as [|g gs IH]; [done |].
  rewrite !fmap_cons. change (mjoin (?l :: ?ls)) with (l ++ mjoin ls)%list.
  destruct (turn_single g s c aiConfig Hc Hai) as (r & -> & Hr).
  rewrite fmap_app, IH. cbn. by rewrite Hr.
Qed.

(** X8. When the configuration has no [ai] section (or no configuration
    was loaded), reading [rateLimitDelay] throws after the success was
    pushed: a guide that was generated and written is recorded twice, as a
    success and as an error, shows up in both lists of the index, and no
    delay follows its call. *)
Theorem missing_ai_section_records_twice guide s client content :
  aiClient s = Some client ->
  (config s = None \/ exists c, config s = Some c /\ ai c = None) ->
  generateContent w client (promptFor s masterPrompt guide) = Ok content ->
  fs_writeFile w (path_join w (outputPath s) (name guide +:+ ".md"))
               (GuideMarkdown content) = Ok tt ->
  exists error,
    turnResults w a masterPrompt s guide
    = [ GuideSuccess (name guide) (path_join w (outputPath s) (name guide +:+ ".md"))
                     (guideConfidence a (name guide));
        GuideError (name guide) error ] /\
    entry_guide <$> successfulGuides (indexGuides (turnResults w a masterPrompt s guide))
    = [name guide] /\
    failedGuides (indexGuides (turnResults w a masterPrompt s guide))
    = [(name guide, error)] /\
    omap delayOf (turnTrace w a masterPrompt s guide) = [].
Proof.
  destruct s as [root cp out cfg an cl rs tr]. cbn. intros -> Hcfg Hgen Hwrite.
  unfold promptFor in Hgen. cbn in Hgen. unfold_turn. cbn.
  rewrite Hgen. cbn. rewrite Hwrite. cbn.
  destruct Hcfg as [->|(c & -> & Hai)]; cbn; [eauto 10 |]. rewrite Hai. cbn. eauto 10.
Qed.

(** X9. After a generation call and a guide write that both succeed, the
    pause is [rateLimitDelay] milliseconds, and 100 when the setting is
    missing or 0: the orchestrator never pauses for 0 milliseconds. *)
Theorem pause_is_never_zero guide s client content aiConfig settings :
  aiClient s = Some client ->
  config s = Some {| ai := Some aiConfig; settings := settings |} ->
  generateContent w client (promptFor s masterPrompt guide) = Ok content ->
  fs_writeFile w (path_join w (outputPath s) (name guide +:+ ".md"))
               (GuideMarkdown content) = Ok tt ->
  exists ms,
    omap delayOf (turnTrace w a masterPrompt s guide) = [ms] /\
    ms <> 0%Z /\
    (rateLimitDelay aiConfig = None \/ rateLimitDelay aiConfig = Some 0%Z -> ms = 100%Z) /\
    (forall n, rateLimitDelay aiConfig = Some n -> n <> 0%Z -> ms = n).
Proof.
  intros Hclient Hconfig Hgen Hwrite.
  exists (Z_or (rateLimitDelay aiConfig) 100).
  rewrite (turn_succeeded w a masterPrompt guide s client content aiConfig settings
             Hclient Hconfig Hgen Hwrite).
  split; [reflexivity |].
  destruct (rateLimitDelay aiConfig) as [[|n|n]|]; cbn; repeat split;
    try done; try (intros [?|?]; done); intros ? [= <-]; done.
Qed.

(** X10. When every generation call and guide write of a batch succeeds
    and the configuration has an [ai] section, the events the batch adds
    have the configured pause between consecutive calls. *)
Theorem successful_batch_is_paused s client aiConfig settings gs :
  aiClient s = Some client ->
  config s = Some {| ai := Some aiConfig; settings := settings |} ->
  (forall guide, guide ∈ gs ->
     exists content,
       generateContent w client (promptFor s masterPrompt guide) = Ok content /\
       fs_writeFile w (path_join w (outputPath s) (name guide +:+ ".md"))
                    (GuideMarkdown content) = Ok tt) ->
  let batch := for_of gs (generateOne w a masterPrompt) s in
  exists added,
    trace batch.2 = (trace s ++ added)%list /\
    omap callOf added = name <$> gs /\
    pausedBetweenCalls (Z_or (rateLimitDelay aiConfig) 100) false added = true.
Proof.
  intros Hclient Hconfig Hall batch. subst batch. rewrite for_of_generateOne. cbn.
  exists (mjoin (turnTrace w a masterPrompt s <$> gs)).
  split; [reflexivity |]. split; [by eapply calls_of_turns |].
  apply paused_when_all_succeed. intros guide Hin.
  destruct (Hall guide Hin) as (content & Hgen & Hwrite).
  eexists. by eapply turn_succeeded.
Qed.

End Turns.

(** ** [generateDocumentation] as a whole *)

Section Documentation.
Local Open Scope string_scope.
Variable w : World.

(** [createIndexContent] changes nothing; it returns the index rendered
    from the analysis and the two guide lists, unless there is nothing to
    render the summary from. *)
Lemma createIndexContent_cases (rs : list GuideResult) a s :
  this_analysis s = Some a ->
  createIndexContent rs s
  = if nullish (project_structure (project a))
    then (Threw "Cannot read properties of null (reading 'totalFiles')", s)
    else (Returned (IndexMarkdown a (indexGuides rs)), s).
Proof.
  intros Ha. unfold createIndexContent, throw, gets, mbind, M_bind, mret, M_ret.
  rewrite Ha. by destruct (nullish _).
Qed.

(** With an analysis in place: either the master prompt cannot be read
    and nothing else happens, or every sorted guide gets its turn; then
    rendering the index throws, or the index is written from what the
    turns recorded. *)
Lemma generateDocumentation_cases a s :
  this_analysis s = Some a ->
  match fs_readFile w (promptPath w) with
  | Error e => generateDocumentation w s = (Threw e, record (ReadFile (promptPath w)) s)
  | Ok masterPrompt =>
      let sortedGuides := Array_sort (compareGuides a) guides in
      let rs := mjoin (turnResults w a masterPrompt s <$> sortedGuides) in
      let looped :=
        extend (set_results [] (record (ReadFile (promptPath w)) s)) rs
               (mjoin (turnTrace w a masterPrompt s <$> sortedGuides)) in
      let after := record (WriteFile (indexPath w s)) looped in
      generateDocumentation w s
      = if nullish (project_structure (project a))
        then (Threw "Cannot read properties of null (reading 'totalFiles')", looped)
        else match fs_writeFile w (indexPath w s) (IndexMarkdown a (indexGuides rs)) with
             | Ok _ => (Returned rs, after)
             | Error e => (Threw e, after)
             end
  end.
Proof.
  intros Ha. unfold_generate. rewrite Ha. unfold promptPath, indexPath.
  destruct (fs_readFile w _) as [masterPrompt|e]; [| reflexivity].
  cbv zeta.
  set (s1 := set_results [] (record (ReadFile _) s)).
  rewrite (for_of_generateOne w a masterPrompt _ s1).
  change (turnResults w a masterPrompt s1) with (turnResults w a masterPrompt s).
  change (turnTrace w a masterPrompt s1) with (turnTrace w a masterPrompt s).
  cbn [results extend outputPath this_analysis set_results record app fst snd].
  change (this_analysis s1) with (this_analysis s). change (results s1) with (@nil GuideResult).
  rewrite Ha, app_nil_l.
  destruct (nullish _); [reflexivity |].
  destruct (fs_writeFile w _ _) as [[]|e]; reflexivity.
Qed.

(** X11. Called before an analysis exists, [generateDocumentation] throws
    its own error and touches nothing: no file is read, no call is issued,
    the results are left alone. *)
Theorem generation_needs_analysis s :
  this_analysis s = None ->
  generateDocumentation w s
  = (Threw "Analysis must be completed before generating documentation", s).
Proof. intros Hnone. unfold_generate. by rewrite Hnone. Qed.

(** X12. When the master prompt cannot be read, [generateDocumentation]
    throws the read error before the loop: no generation call is issued, no
    guide or index file is written, and the results are left alone. *)
Theorem unreadable_prompt_stops_generation a s e :
  this_analysis s = Some a ->
  fs_readFile w (promptPath w) = Error e ->
  let ended := generateDocumentation w s in
  ended.1 = Threw e /\
  trace ended.2 = (trace s ++ [ReadFile (promptPath w)])%list /\
  results ended.2 = results s.
Proof.
  intros Ha Hread ended. subst ended.
  pose proof (generateDocumentation_cases a s Ha) as Hcases.
  rewrite Hread in Hcases. by rewrite Hcases.
Qed.

(** X13. When [generateDocumentation] returns, none of the ten guides is
    missing from its results: each has an entry, a success or an error. *)
Theorem every_guide_recorded a s rs s' :
  this_analysis s = Some a ->
  generateDocumentation w s = (Returned rs, s') ->
  forall guide, guide ∈ guides -> exists r, r ∈ rs /\ resultGuide r = name guide.
Proof.
  intros Ha Hrun guide Hguide.
  pose proof (generateDocumentation_cases a s Ha) as Hcases.
  destruct (fs_readFile w (promptPath w)) as [masterPrompt|e]; [| congruence].
  cbv zeta in Hcases. rewrite Hrun in Hcases.
  destruct (nullish _); [discriminate |].
  destruct (fs_writeFile w _ _) as [[]|e]; [| discriminate].
  assert (rs = mjoin (turnResults w a masterPrompt s
                        <$> Array_sort (compareGuides a) guides)) as -> by congruence.
  destruct (turn_names w a masterPrompt guide s) as [Hnonempty Hnames].
  destruct (turnResults w a masterPrompt s guide) as [|r turn] eqn:Hturn; [done |].
  exists r. split; [| by apply Forall_inv in Hnames].
  apply list_elem_of_join. exists (r :: turn). split; [by left |].
  rewrite <- Hturn. apply list_elem_of_fmap_2.
  rewrite (Array_sort_perm (compareGuides a) guides). exact Hguide.
Qed.

(** X14. With an [ai] section in the configuration, the results hold one
    entry per guide, in the order in which the guides were sorted. *)
Theorem one_entry_per_guide a s rs s' c aiConfig :
  this_analysis s = Some a ->
  config s = Some c -> ai c = Some aiConfig ->
  generateDocumentation w s = (Returned rs, s') ->
  resultGuide <$> rs = name <$> Array_sort (compareGuides a) guides /\
  length rs = 10%nat.
Proof.
  intros Ha Hc Hai Hrun.
  pose proof (generateDocumentation_cases a s Ha) as Hcases.
  destruct (fs_readFile w (promptPath w)) as [masterPrompt|e]; [| congruence].
  cbv zeta in Hcases. rewrite Hrun in Hcases.
  destruct (nullish _); [discriminate |].
  destruct (fs_writeFile w _ _) as [[]|e]; [| discriminate].
  assert (rs = mjoin (turnResults w a masterPrompt s
                        <$> Array_sort (compareGuides a) guides)) as -> by congruence.
  assert (Hnames : resultGuide <$>
                     mjoin (turnResults w a masterPrompt s
                              <$> Array_sort (compareGuides a) guides)
                   = name <$> Array_sort (compareGuides a) guides)
    by (by eapply names_of_turns).
  split; [exact Hnames |].
  etransitivity; [symmetry; apply (length_fmap resultGuide) |].
  rewrite Hnames, length_fmap.
  by rewrite (Array_sort_perm (compareGuides a) guides).
Qed.

(** X15. Once the master prompt is read, every guide gets exactly one
    generation call, in sorted order, with no retry after a failure.  When
    the file-structure result of the analysis is not [null], the write of
    the index is attempted last, also when every guide failed and whether
    or not that write succeeds; when it is [null], rendering the index
    throws after the last guide and no index write is issued. *)
Theorem one_call_per_guide_then_index a s client masterPrompt :
  this_analysis s = Some a ->
  aiClient s = Some client ->
  fs_readFile w (promptPath w) = Ok masterPrompt ->
  exists turns,
    trace (generateDocumentation w s).2
    = (trace s ++ ReadFile (promptPath w) :: turns
         ++ (if nullish (project_structure (project a)) then []
             else [WriteFile (indexPath w s)]))%list /\
    omap callOf turns = name <$> Array_sort (compareGuides a) guides /\
    (nullish (project_structure (project a)) = true ->
     exists error, (generateDocumentation w s).1 = Threw error).
Proof.
  intros Ha Hclient Hread.
  pose proof (generateDocumentation_cases a s Ha) as Hcases.
  rewrite Hread in Hcases. cbv zeta in Hcases.
  exists (mjoin (turnTrace w a masterPrompt s <$> Array_sort (compareGuides a) guides)).
  split; [| split; [by eapply calls_of_turns |]].
  - rewrite Hcases. destruct (nullish _); cbn.
    + by rewrite app_nil_r, <- !app_assoc.
    + destruct (fs_writeFile w _ _) as [[]|e]; cbn; by rewrite <- !app_assoc.
  - intros Hnull. rewrite Hcases, Hnull. eauto.
Qed.

(** X16. The index splits the results without losing or inventing an
    entry: the successful guides are the success entries and the failed
    guides are the error entries, both in the order of the results. *)
Theorem index_partitions_results (rs : list GuideResult) :
  entry_guide <$> successfulGuides (indexGuides rs)
  = resultGuide <$> filter (fun r => isSuccess r = true) rs /\
  (failedGuides (indexGuides rs)).*1
  = resultGuide <$> filter (fun r => isSuccess r = false) rs /\
  (length (successfulGuides (indexGuides rs))
   + length (failedGuides (indexGuides rs)))%nat = length rs.
Proof.
  induction rs as [|r rs (IHs & IHf & IHl)]; [done |].
  cbn [indexGuides successfulGuides failedGuides omap list_omap] in *.
  rewrite !filter_cons.
  destruct r as [guide path c|guide e]; cbn; repeat split;
    first [by rewrite IHs | by rewrite IHf | lia | done].
Qed.

End Documentation.

(** ** Project metadata, configuration and analyzer failures *)

Section Failures.
Local Open Scope string_scope.
Variable w : World.

(** X17. [detectProjectName] never throws and changes nothing but the
    trace.  It returns the name found in package.json when the file can be
    read and parsed and holds a non-empty name, and the base name of the
    project root in every other case: the file cannot be read, it cannot be
    parsed, or its name is missing or empty. *)
Theorem project_name_falls_back s :
  exists projectName,
    detectProjectName w s
    = (Returned projectName, extend s [] [ReadFile (packagePath w s)]) /\
    (forall data packageJson packageName,
       fs_readFile w (packagePath w s) = Ok data ->
       JSON_parse_package w data = Ok packageJson ->
       package_name packageJson = Some packageName ->
       packageName <> "" ->
       projectName = packageName) /\
    (forall data packageJson,
       fs_readFile w (packagePath w s) = Ok data ->
       JSON_parse_package w data = Ok packageJson ->
       package_name packageJson = None \/ package_name packageJson = Some "" ->
       projectName = path_basename w (projectRoot s)) /\
    (forall data e,
       fs_readFile w (packagePath w s) = Ok data ->
       JSON_parse_package w data = Error e ->
       projectName = path_basename w (projectRoot s)) /\
    (forall e,
       fs_readFile w (packagePath w s) = Error e ->
       projectName = path_basename w (projectRoot s)).
Proof.
  exists (projectNameOf w (projectRoot s)).
  split; [apply detectProjectName_returns |].
  unfold projectNameOf, packageJsonOf, packagePath.
  destruct (fs_readFile w _) as [data|e].
  2: { repeat split; try discriminate; reflexivity. }
  destruct (JSON_parse_package w data) as [packageJson|e] eqn:Hparse.
  2: { repeat split; try discriminate; try reflexivity;
       intros data' packageJson' ? [= <-]; congruence. }
  repeat split.
  - intros data' packageJson' packageName [= <-] Hparse' Hfield Hname.
    assert (packageJson' = packageJson) as -> by congruence.
    rewrite Hfield. by destruct packageName.
  - intros data' packageJson' [= <-] Hparse' Hfield.
    assert (packageJson' = packageJson) as -> by congruence.
    by destruct Hfield as [->| ->].
  - intros data' e [= <-]. congruence.
  - discriminate.
Qed.

(** X18. [detectProjectDescription] never throws either, and never
    returns an empty description.  It returns the description of
    package.json when the file can be read and parsed and holds a
    non-empty description, and ['No description available'] in every other
    case: the file cannot be read, it cannot be parsed, or its description
    is missing or empty. *)
Theorem project_description_falls_back s :
  exists description,
    detectProjectDescription w s
    = (Returned description, extend s [] [ReadFile (packagePath w s)]) /\
    description <> "" /\
    (forall data packageJson packageDescription,
       fs_readFile w (packagePath w s) = Ok data ->
       JSON_parse_package w data = Ok packageJson ->
       package_description packageJson = Some packageDescription ->
       packageDescription <> "" ->
       description = packageDescription) /\
    (forall data packageJson,
       fs_readFile w (packagePath w s) = Ok data ->
       JSON_parse_package w data = Ok packageJson ->
       package_description packageJson = None \/
       package_description packageJson = Some "" ->
       description = "No description available") /\
    (forall data e,
       fs_readFile w (packagePath w s) = Ok data ->
       JSON_parse_package w data = Error e ->
       description = "No description available") /\
    (forall e,
       fs_readFile w (packagePath w s) = Error e ->
       description = "No description available").
Proof.
  exists (projectDescriptionOf w (projectRoot s)).
  split; [apply detectProjectDescription_returns |].
  unfold projectDescriptionOf, packageJsonOf, packagePath.
  destruct (fs_readFile w _) as [data|e].
  2: { repeat split; try discriminate; reflexivity. }
  destruct (JSON_parse_package w data) as [packageJson|e] eqn:Hparse.
  2: { repeat split; try discriminate; try reflexivity;
       intros data' packageJson' ? [= <-]; congruence. }
  repeat split.
  - by destruct (package_description packageJson) as [[|c d]|].
  - intros data' packageJson' packageDescription [= <-] Hparse' Hfield Hdescription.
    assert (packageJson' = packageJson) as -> by congruence.
    rewrite Hfield. by destruct packageDescription.
  - intros data' packageJson' [= <-] Hparse' Hfield.
    assert (packageJson' = packageJson) as -> by congruence.
    by destruct Hfield as [->| ->].
  - intros data' e [= <-]. congruence.
  - discriminate.
Qed.

(** X19. When the configuration file cannot be read or parsed, a run
    ends with status 1 straight after the read: no directory is created, no
    analyzer, generation call or validator is invoked, nothing is written,
    and the fields of the generator are as they were. *)
Theorem config_failure_stops_everything s :
  (exists e, fs_readFile w (configPath s) = Error e) \/
  (exists data e, fs_readFile w (configPath s) = Ok data /\
                  JSON_parse_config w data = Error e) ->
  run w s = (Exited 1, record (ReadFile (configPath s)) s).
Proof.
  destruct s as [root cp out cfg an cl rs tr]. cbn. unfold_run. simpl_run.
  intros [[e Hread]|(data & e & Hread & Hparse)]; rewrite Hread; simpl_run;
    [done |]. by rewrite Hparse.
Qed.

(** X20. When one of the four analyzers rejects, [analyzeCodebase] throws
    after having invoked all four: the results of the others are dropped,
    [this.analysis] is not assigned and nothing is saved. *)
Theorem rejected_analyzer_leaves_no_analysis s :
  (exists e, techStack_analyze w (config s) (projectRoot s) = Error e) \/
  (exists e, architecture_analyze w (config s) (projectRoot s) = Error e) \/
  (exists e, codeExtractor_extract w (config s) (projectRoot s) = Error e) \/
  (exists e, fileStructure_analyze w (config s) (projectRoot s) = Error e) ->
  exists e,
    analyzeCodebase w s = (Threw e, extend s [] (firstStage (projectRoot s))).
Proof.
  destruct s as [root cp out cfg an cl rs tr]. cbn. unfold firstStage.
  unfold_run. simpl_run. intros Hrejected.
  destruct (techStack_analyze w cfg root) as [ts|e1];
    [| exists e1; simpl_run; same_state].
  destruct (architecture_analyze w cfg root) as [arch|e2];
    [| exists e2; simpl_run; same_state].
  destruct (codeExtractor_extract w cfg root) as [ex|e3];
    [| exists e3; simpl_run; same_state].
  destruct (fileStructure_analyze w cfg root) as [structure|e4];
    [| exists e4; simpl_run; same_state].
  destruct Hrejected as [[e H]|[[e H]|[[e H]|[e H]]]]; discriminate H.
Qed.

End Failures.

(** ** The command line *)

Section CommandLine.
Import Cli.
Local Open Scope string_scope.
Implicit Types (args pre post : list string) (options : gmap string (option string)).

(** Induction two arguments at a time, as the loop reads them. *)
Lemma args_pair_ind (P : list string -> Prop) :
  P [] -> (forall key, P [key]) ->
  (forall key value rest, P rest -> P (key :: value :: rest)) ->
  forall args, P args.
Proof.
  intros Hnil Hone Hpair.
  assert (Hboth : forall args, P args /\ forall key, P (key :: args)).
  { induction args as [|x args [IH1 IH2]]; [by split |].
    split; [apply IH2 |]. intros key. by apply Hpair. }
  intros args. apply Hboth.
Qed.

Lemma parseArgs_untouched args options key :
  key ∉ flagsOf args -> parseArgs args options !! key = options !! key.
Proof.
  revert options. induction args as [|k|k v rest IH] using args_pair_ind;
    intros options Hout; cbn [parseArgs flagsOf] in *.
  - done.
  - apply lookup_insert_ne. intros Heq. subst key. apply Hout. by left.
  - rewrite IH by (intros Hin; apply Hout; by right).
    apply lookup_insert_ne. intros Heq. subst key. apply Hout. by left.
Qed.

Lemma parseArgs_app pre post options :
  Nat.Even (length pre) ->
  parseArgs (pre ++ post) options = parseArgs post (parseArgs pre options).
Proof.
  revert options. induction pre as [|k|k v rest IH] using args_pair_ind;
    intros options Heven.
  - done.
  - destruct Heven as [n Hn]. cbn in Hn. lia.
  - cbn [app parseArgs]. apply IH.
    destruct Heven as [n Hn]. cbn in Hn. exists (n - 1)%nat. lia.
Qed.

(** X21. On the command line the last occurrence of a flag decides its
    value, and the leading ['--'] of the flag is dropped when present. *)
Theorem last_flag_wins pre key value post options :
  Nat.Even (length pre) ->
  String_replace "--" "" key ∉ flagsOf post ->
  parseArgs (pre ++ key :: value :: post) options !! String_replace "--" "" key
  = Some (Some value).
Proof.
  intros Heven Hlast. rewrite parseArgs_app by done. cbn [parseArgs].
  rewrite parseArgs_untouched by done. apply lookup_insert_eq.
Qed.

(** X22. A path flag that does not occur on the command line leaves the
    default: the working directory for the project root, and the two
    built-in paths for the configuration and the output. *)
Theorem absent_flags_default cwd argv :
  ("projectRoot" ∉ flagsOf argv ->
   projectRoot (generatorFor cwd argv) = cwd) /\
  ("configPath" ∉ flagsOf argv ->
   configPath (generatorFor cwd argv) = "./config/analysis-config.json") /\
  ("outputPath" ∉ flagsOf argv ->
   outputPath (generatorFor cwd argv) = "./output/generated-docs").
Proof.
  unfold generatorFor, constructor, option_value. cbn.
  repeat split; intros Hout; by rewrite parseArgs_untouched, lookup_empty.
Qed.

(** X23. A flag in last position with no value after it is stored with
    the value [undefined], and the generator falls back to the default for
    that path. *)
Theorem flag_without_value_defaults cwd pre key :
  Nat.Even (length pre) ->
  let argv := (pre ++ [key])%list in
  option_value (parseArgs argv ∅) (String_replace "--" "" key) = None /\
  (String_replace "--" "" key = "projectRoot" ->
   projectRoot (generatorFor cwd argv) = cwd) /\
  (String_replace "--" "" key = "configPath" ->
   configPath (generatorFor cwd argv) = "./config/analysis-config.json") /\
  (String_replace "--" "" key = "outputPath" ->
   outputPath (generatorFor cwd argv) = "./output/generated-docs").
Proof.
  intros Heven argv.
  assert (Hvalue : option_value (parseArgs argv ∅) (String_replace "--" "" key) = None).
  { subst argv. unfold option_value. rewrite parseArgs_app by done. cbn [parseArgs].
    by rewrite lookup_insert_eq. }
  split; [exact Hvalue |].
  unfold generatorFor, constructor. cbn.
  repeat split; intros Hkey; rewrite Hkey in Hvalue; by rewrite Hvalue.
Qed.

End CommandLine.

(** ** The trace of a whole run *)

(** Closes a branch of a run whose trace is explicit. *)
Ltac trace_shape :=
  simpl_run; rewrite <- ?app_assoc; cbn; repeat split; first [reflexivity | assumption].

(** Closes a branch of a run that ended before any generation call. *)
Ltac no_calls := left; simpl_run; rewrite ?omap_app; cbn; by rewrite ?app_nil_r.

Section RunTrace.
Local Open Scope string_scope.
Variable w : World.

(** A run either issues no generation call, or has first sent a batch of
    events without any call that ends with the write of the analysis. *)
Lemma run_trace_prefix s :
  omap callOf (trace (run w s).2) = omap callOf (trace s) \/
  exists saved later,
    trace (run w s).2 = (trace s ++ saved ++ later)%list /\
    omap callOf saved = [] /\
    WriteFile (analysisPath w s) ∈ saved.
Proof.
  destruct s as [root cp out cfg an cl rs tr]. unfold analysisPath. unfold_run. simpl_run.
  destruct (fs_readFile w cp) as [data|e]; [| no_calls]. simpl_run.
  destruct (JSON_parse_config w data) as [c|e]; [| no_calls]. simpl_run.
  destruct (new_AIClient w (ai c)) as [client|e]; [| no_calls]. simpl_run.
  destruct (fs_mkdir w out) as [[]|e]; [| no_calls]. simpl_run.
  destruct (techStack_analyze w (Some c) root) as [ts|e]; [| no_calls].
  destruct (architecture_analyze w (Some c) root) as [arch|e]; [| no_calls].
  destruct (codeExtractor_extract w (Some c) root) as [ex|e]; [| no_calls].
  destruct (fileStructure_analyze w (Some c) root) as [structure|e]; [| no_calls].
  simpl_run.
  match goal with |- context [detectProjectName w ?S] =>
    destruct (detectProjectName_extend w S) as (projectName & ->) end.
  match goal with |- context [detectProjectDescription w ?S] =>
    destruct (detectProjectDescription_extend w S) as (description & ->) end.
  simpl_run.
  right.
  exists [ ReadFile cp; Mkdir out;
           Invoke TechStackAnalyzer [ProjectRoot root];
           Invoke ArchitectureAnalyzer [ProjectRoot root];
           Invoke CodeExtractor [ProjectRoot root];
           Invoke FileStructureAnalyzer [ProjectRoot root];
           AwaitAll [TechStackAnalyzer; ArchitectureAnalyzer; CodeExtractor;
                     FileStructureAnalyzer];
           ReadFile (path_join w root "package.json");
           ReadFile (path_join w root "package.json");
           WriteFile (path_join w out "analysis-results.json") ].
  assert (Hsaved : WriteFile (path_join w out "analysis-results.json")
                   ∈ [ ReadFile cp; Mkdir out;
           Invoke TechStackAnalyzer [ProjectRoot root];
           Invoke ArchitectureAnalyzer [ProjectRoot root];
           Invoke CodeExtractor [ProjectRoot root];
           Invoke FileStructureAnalyzer [ProjectRoot root];
           AwaitAll [TechStackAnalyzer; ArchitectureAnalyzer; CodeExtractor;
                     FileStructureAnalyzer];
           ReadFile (path_join w root "package.json");
           ReadFile (path_join w root "package.json");
           WriteFile (path_join w out "analysis-results.json") ]).
  { do 9 apply list_elem_of_further. apply list_elem_of_here. }
  destruct (fs_writeFile w (path_join w out "analysis-results.json") _) as [[]|e].
  2: { exists []. trace_shape. }
  simpl_run.
  destruct (fs_readFile w (path_join w (path_join w (dirname w) "prompts")
                                     "master-prompt.md")) as [masterPrompt|e].
  2: { eexists. trace_shape. }
  simpl_run. rewrite for_of_generateOne. simpl_run.
  destruct (nullish structure).
  1: { eexists. trace_shape. }
  simpl_run.
  destruct (fs_writeFile w (path_join w out "README.md") _) as [[]|e].
  2: { eexists. trace_shape. }
  simpl_run.
  destruct (validate w AccuracyValidator (Some c) out),
           (validate w CompletenessValidator (Some c) out),
           (validate w ConsistencyValidator (Some c) out);
    eexists; trace_shape.
Qed.

Lemma split_after_prefix {A} (done rest before after : list A) (x : A) :
  (done ++ rest = before ++ x :: after)%list -> x ∉ done ->
  exists middle, before = (done ++ middle)%list.
Proof.
  revert before. induction done as [|y done IH]; intros before Heq Hout; [by exists before |].
  destruct before as [|b before]; cbn in Heq.
  - injection Heq as -> _. exfalso. apply Hout. by left.
  - injection Heq as -> Heq. destruct (IH before Heq) as [middle ->].
    + intros Hin. apply Hout. by right.
    + by exists middle.
Qed.

Lemma no_call_not_elem (evs : list Event) guide :
  omap callOf evs = [] -> GenerateContent guide ∉ evs.
Proof.
  intros Hnone Hin.
  assert (guide ∈ omap callOf evs) by (apply list_elem_of_omap; by exists (GenerateContent guide)).
  rewrite Hnone in H. by apply elem_of_nil in H.
Qed.

(** X24. In a run, every generation call comes after the write of
    analysis-results.json: the analysis is on its way to disk before the
    first request leaves for the generation service. *)
Theorem analysis_saved_before_generation s before guide after :
  omap callOf (trace s) = [] ->
  trace (run w s).2 = (before ++ GenerateContent guide :: after)%list ->
  WriteFile (analysisPath w s) ∈ before.
Proof.
  intros Hfresh Htrace.
  destruct (run_trace_prefix s) as [Hnone|(saved & later & Hrun & Hquiet & Hsaved)].
  - exfalso. rewrite Hfresh in Hnone.
    apply (no_call_not_elem _ guide Hnone). rewrite Htrace.
    apply elem_of_app. right. by left.
  - rewrite Htrace, app_assoc in Hrun. symmetry in Hrun.
    destruct (split_after_prefix _ _ _ _ _ Hrun) as [middle ->].
    + apply no_call_not_elem. by rewrite omap_app, Hfresh, Hquiet.
    + rewrite elem_of_app. left. rewrite elem_of_app. by right.
Qed.

(** X25. [validateDocumentation] invokes all three validators on the
    output directory whatever each of them answers, changes nothing else,
    and returns only when all three resolve: one rejecting validator makes
    it throw. *)
Theorem validation_runs_all_three s :
  (validateDocumentation w s).2
  = extend s [] [ Validate AccuracyValidator; Validate CompletenessValidator;
                  Validate ConsistencyValidator ] /\
  ((exists reports, (validateDocumentation w s).1 = Returned reports) <->
   (forall v, exists report, validate w v (config s) (outputPath s) = Ok report)).
Proof.
  destruct s as [root cp out cfg an cl rs tr]. unfold_run. simpl_run.
  destruct (validate w AccuracyValidator cfg out) as [r1|e1] eqn:H1,
           (validate w CompletenessValidator cfg out) as [r2|e2] eqn:H2,
           (validate w ConsistencyValidator cfg out) as [r3|e3] eqn:H3;
    simpl_run; (split; [same_state |]);
    first [ solve [split; [intros _ []; eauto | intros _; eauto]]
          | split; [intros [reports Hreturned]; discriminate Hreturned |];
            intros Hall; exfalso;
            first [ destruct (Hall AccuracyValidator) as [? ?]; congruence
                  | destruct (Hall CompletenessValidator) as [? ?]; congruence
                  | destruct (Hall ConsistencyValidator) as [? ?]; congruence ] ].
Qed.

End RunTrace.

(** ** The further properties at the example inputs *)

Section FurtherExamples.
Import Scenarios Cli.
Local Open Scope string_scope.

Lemma missing_ai_section_records_twice_witness :
  exists error,
    turnResults (scenario [] true) sampleAnalysis "data" (generatorWithAi None) databaseGuide
    = [ GuideSuccess "database-architecture"
                     "./output/generated-docs/database-architecture.md" 0%Q;
        GuideError "database-architecture" error ].
Proof.
  destruct (missing_ai_section_records_twice (scenario [] true) sampleAnalysis "data"
              databaseGuide (generatorWithAi None) {| client_config := None |} "# Guide"
              eq_refl
              (or_intror (ex_intro _ {| ai := None; settings := JNull |}
                                   (conj eq_refl eq_refl)))
              eq_refl eq_refl)
    as (error & Hturn & _).
  exists error. exact Hturn.
Defined.

Lemma pause_is_never_zero_witness :
  omap delayOf (turnTrace (scenario [] true) sampleAnalysis "data"
                  (generatorWithAi (Some {| rateLimitDelay := Some 0%Z |})) databaseGuide)
  = [100%Z].
Proof.
  destruct (pause_is_never_zero (scenario [] true) sampleAnalysis "data" databaseGuide
              (generatorWithAi (Some {| rateLimitDelay := Some 0%Z |}))
              {| client_config := Some {| rateLimitDelay := Some 0%Z |} |} "# Guide"
              {| rateLimitDelay := Some 0%Z |} JNull eq_refl eq_refl eq_refl eq_refl)
    as (ms & Hdelay & _ & Hdefault & _).
  rewrite Hdelay. f_equal. apply Hdefault. by right.
Defined.

Lemma successful_batch_is_paused_witness :
  exists added,
    trace (for_of twoGuides (generateOne (scenario [] true) sampleAnalysis "data")
             analysedGenerator).2
    = (trace analysedGenerator ++ added)%list /\
    omap callOf added = ["authentication-architecture"; "database-architecture"] /\
    pausedBetweenCalls 100 false added = true.
Proof.
  apply (successful_batch_is_paused (scenario [] true) sampleAnalysis "data"
           analysedGenerator {| client_config := ai sampleConfig |}
           {| rateLimitDelay := Some 100%Z |} JNull twoGuides eq_refl eq_refl).
  intros guide Hguide. exists "# Guide". unfold twoGuides in Hguide.
  rewrite !elem_of_cons, elem_of_nil in Hguide.
  destruct Hguide as [->|[->|[]]]; split; reflexivity.
Defined.

Lemma generation_needs_analysis_witness :
  generateDocumentation (scenario [] true) freshGenerator
  = (Threw "Analysis must be completed before generating documentation", freshGenerator).
Proof. exact (generation_needs_analysis (scenario [] true) freshGenerator eq_refl). Defined.

Lemma unreadable_prompt_stops_generation_witness :
  let ended := generateDocumentation (scenario [] false) analysedGenerator in
  ended.1 = Threw "ENOENT" /\
  trace ended.2 = [ReadFile "/app/prompts/master-prompt.md"] /\
  results ended.2 = [].
Proof.
  exact (unreadable_prompt_stops_generation (scenario [] false) sampleAnalysis
           analysedGenerator "ENOENT" eq_refl eq_refl).
Defined.

Lemma every_guide_recorded_witness :
  exists r,
    r ∈ results (generateDocumentation (scenario ["testing-architecture"] true)
                   analysedGenerator).2 /\
    resultGuide r = "testing-architecture".
Proof.
  assert (Hguide : testingGuide ∈ guides).
  { unfold guides. do 7 apply list_elem_of_further. apply list_elem_of_here. }
  assert (Hrun : generateDocumentation (scenario ["testing-architecture"] true)
                   analysedGenerator
                 = (Returned (results (generateDocumentation
                                         (scenario ["testing-architecture"] true)
                                         analysedGenerator).2),
                    (generateDocumentation (scenario ["testing-architecture"] true)
                       analysedGenerator).2))
    by (vm_compute; reflexivity).
  exact (every_guide_recorded (scenario ["testing-architecture"] true) sampleAnalysis
           analysedGenerator _ _ eq_refl Hrun testingGuide Hguide).
Defined.

Lemma one_entry_per_guide_witness :
  length (results (generateDocumentation (scenario ["testing-architecture"] true)
                     analysedGenerator).2) = 10%nat.
Proof.
  apply (one_entry_per_guide (scenario ["testing-architecture"] true) sampleAnalysis
           analysedGenerator _
           (generateDocumentation (scenario ["testing-architecture"] true)
              analysedGenerator).2
           sampleConfig {| rateLimitDelay := Some 100%Z |} eq_refl eq_refl eq_refl).
  vm_compute. reflexivity.
Defined.

Lemma one_call_per_guide_then_index_witness :
  (exists turns,
     trace (generateDocumentation (scenario ["testing-architecture"] true)
              analysedGenerator).2
     = (ReadFile "/app/prompts/master-prompt.md"
          :: turns ++ [WriteFile "./output/generated-docs/README.md"])%list /\
     omap callOf turns = name <$> Array_sort (compareGuides sampleAnalysis) guides) /\
  (exists turns,
     trace (generateDocumentation (scenario [] true) unstructuredGenerator).2
     = (ReadFile "/app/prompts/master-prompt.md" :: turns ++ [])%list /\
     omap callOf turns = name <$> Array_sort (compareGuides unstructuredAnalysis) guides /\
     exists error,
       (generateDocumentation (scenario [] true) unstructuredGenerator).1 = Threw error).
Proof.
  split.
  - destruct (one_call_per_guide_then_index (scenario ["testing-architecture"] true)
                sampleAnalysis analysedGenerator {| client_config := ai sampleConfig |}
                "data" eq_refl eq_refl eq_refl)
      as (turns & Htrace & Hcalls & _).
    exists turns. split; [exact Htrace | exact Hcalls].
  - destruct (one_call_per_guide_then_index (scenario [] true)
                unstructuredAnalysis unstructuredGenerator
                {| client_config := ai sampleConfig |} "data" eq_refl eq_refl eq_refl)
      as (turns & Htrace & Hcalls & Hthrown).
    exists turns. split; [exact Htrace |]. split; [exact Hcalls |].
    exact (Hthrown eq_refl).
Defined.

Lemma project_name_falls_back_witness :
  (detectProjectName (scenario [] true) freshGenerator).1 = Returned "demo".
Proof.
  destruct (project_name_falls_back (scenario [] true) freshGenerator)
    as (projectName & -> & Hpackage & _).
  cbn. f_equal.
  by apply (Hpackage "data" {| package_name := Some "demo"; package_description := None |}).
Defined.

Lemma project_description_falls_back_witness :
  (detectProjectDescription (scenario [] true) freshGenerator).1
  = Returned "No description available".
Proof.
  destruct (project_description_falls_back (scenario [] true) freshGenerator)
    as (description & -> & _ & _ & Hmissing & _).
  cbn. f_equal.
  apply (Hmissing "data" {| package_name := Some "demo"; package_description := None |});
    [reflexivity | reflexivity | by left].
Defined.

Lemma config_failure_stops_everything_witness :
  run (brokenWorld false true) freshGenerator
  = (Exited 1, record (ReadFile "./config/analysis-config.json") freshGenerator).
Proof.
  apply (config_failure_stops_everything (brokenWorld false true) freshGenerator).
  left. exists "ENOENT". reflexivity.
Defined.

Lemma rejected_analyzer_leaves_no_analysis_witness :
  exists e,
    analyzeCodebase (brokenWorld true false) initialisedGenerator
    = (Threw e, extend initialisedGenerator [] (firstStage "/proj")).
Proof.
  apply (rejected_analyzer_leaves_no_analysis (brokenWorld true false) initialisedGenerator).
  right. right. left. exists "EACCES". reflexivity.
Defined.

Lemma last_flag_wins_witness :
  parseArgs ["--outputPath"; "docs"; "outputPath"; "site"; "--projectRoot"; "/srv/app"] ∅
    !! "outputPath"
  = Some (Some "site").
Proof.
  apply (last_flag_wins ["--outputPath"; "docs"] "outputPath" "site"
           ["--projectRoot"; "/srv/app"] ∅).
  - exists 1%nat. reflexivity.
  - apply (bool_decide_eq_false_1 (_ ∈ _)). vm_compute. reflexivity.
Defined.

Lemma flag_without_value_defaults_witness :
  projectRoot (generatorFor "/home/dev" ["--outputPath"; "docs"; "--projectRoot"])
  = "/home/dev".
Proof.
  destruct (flag_without_value_defaults "/home/dev" ["--outputPath"; "docs"] "--projectRoot")
    as (_ & Hroot & _).
  - exists 1%nat. reflexivity.
  - apply Hroot. reflexivity.
Defined.

Lemma analysis_saved_before_generation_witness :
  WriteFile "./output/generated-docs/analysis-results.json"
    ∈ take 11 (trace (run (scenario [] true) freshGenerator).2).
Proof.
  apply (analysis_saved_before_generation (scenario [] true) freshGenerator
           (take 11 (trace (run (scenario [] true) freshGenerator).2))
           "authentication-architecture"
           (drop 12 (trace (run (scenario [] true) freshGenerator).2)));
    vm_compute; reflexivity.
Defined.

(** A command line that sets all three paths. *)
Example command_line_paths :
  let generator :=
    generatorFor "/home/dev"
      ["--projectRoot"; "/srv/app"; "--configPath"; "cfg.json"; "--outputPath"; "docs"] in
  projectRoot generator = "/srv/app" /\
  configPath generator = "cfg.json" /\
  outputPath generator = "docs".
Proof. repeat split; vm_compute; reflexivity. Qed.

End FurtherExamples.
